(** * Fahrzeugverwaltung: vehicle model and store

    A shallow embedding of
    [Objektorientierte_Programmierung_mit_Python_PhilippManich.py]:
    the abstract class [Fahrzeug] with its subclasses [Auto], [Motorrad] and
    [Elektroauto], the conversion to and from tagged dictionaries, and the
    class [Fahrzeugverwaltung] with its JSON persistence.

    Conventions of the embedding:
    - Python objects that the program only stores and passes on are [value]s
      (what [json.load] can return and what the menu reads from the user);
      Python does not check the annotations of [__init__], so an attribute
      holds any value;
    - a [str] is a Rocq [string] holding its UTF-8 encoding; a lone
      surrogate, which [json.load] returns for an escape such as \ud800 and
      which has no UTF-8 encoding, is held as the three bytes of its code
      point (ED A0 80 to ED BF BF), which no UTF-8 text contains;
    - the terminal encodes UTF-8 and is strict about it, as CPython's
      [sys.stdout] is by default: it shows every text but one with a lone
      surrogate, on which [print] raises [UnicodeEncodeError];
    - a [dict] with [str] keys is a [gmap string value];
    - an exception is a constructor of [exn], and code that can raise returns
      a [result]. *)

From Stdlib Require Import ZArith Floats.
From stdpp Require Import gmap strings list fin_maps pretty.

Set Warnings "-register-all".

(** ** Python values *)

Inductive value : Type :=
| VNone
| VBool (b : bool)
| VInt (z : Z)
| VFloat (f : float)
| VStr (s : string)
| VList (l : list value)
| VDict (d : gmap string value).

#[global] Instance value_inhabited : Inhabited value := populate VNone.

(** ** Exceptions *)

Inductive exn : Type :=
| AttributeError (attr : string)
    (* the object has no attribute [attr] *)
| TypeError_unexpected_keyword (cls : string) (names : gset string)
    (* [cls.__init__() got an unexpected keyword argument]; CPython names the
       first offending key of the dictionary, the model keeps all of them *)
| TypeError_missing_arguments (cls : string) (names : list string)
    (* [cls.__init__() missing n required positional arguments] *)
| TypeError_not_iterable (v : value)
| FileNotFoundError
| JSONDecodeError
| OtherException (msg : string).
    (* any other subclass of [Exception], e.g. an [OSError] of the file system *)

Inductive result (A : Type) : Type :=
| Ok (a : A)
| Raise (e : exn).
Arguments Ok {A} a.
Arguments Raise {A} e.

#[global] Instance result_ret : MRet result := @Ok.
#[global] Instance result_bind : MBind result := λ A B f r,
  match r with
  | Ok a => f a
  | Raise e => Raise e
  end.
#[global] Instance result_fmap : FMap result := λ A B f r,
  match r with
  | Ok a => Ok (f a)
  | Raise e => Raise e
  end.

(** ** The class hierarchy *)

(** The attributes set by [Fahrzeug.__init__]. *)
Record Basis : Type := {
  marke : value;
  modell : value;
  baujahr : value;
  geschwindigkeit : value;
  beschleunigung : value
}.

(** [Fahrzeug] is abstract ([beschleunigen] is an [abstractmethod]), so an
    instance belongs to one of the three subclasses; each adds one attribute
    to those of the base class. *)
Inductive Fahrzeug : Type :=
| Auto (super : Basis) (kraftstoff : value)
| Motorrad (super : Basis) (kraftstoff : value)
| Elektroauto (super : Basis) (energiequelle : value).

Definition basis (self : Fahrzeug) : Basis :=
  match self with
  | Auto b _ | Motorrad b _ | Elektroauto b _ => b
  end.

(** [self.__class__.__name__] *)
Definition class_name (self : Fahrzeug) : string :=
  match self with
  | Auto _ _ => "Auto"
  | Motorrad _ _ => "Motorrad"
  | Elektroauto _ _ => "Elektroauto"
  end.

(** ** to_dict *)

Definition Fahrzeug_to_dict (self : Fahrzeug) : gmap string value :=
  list_to_map [
    ("typ", VStr (class_name self));
    ("marke", marke (basis self));
    ("modell", modell (basis self));
    ("baujahr", baujahr (basis self));
    ("geschwindigkeit", geschwindigkeit (basis self));
    ("beschleunigung", beschleunigung (basis self))
  ].

Definition Auto_to_dict (self : Fahrzeug) (kraftstoff : value) : gmap string value :=
  let data := Fahrzeug_to_dict self in
  <["kraftstoff" := kraftstoff]> data.

Definition Motorrad_to_dict (self : Fahrzeug) (kraftstoff : value) : gmap string value :=
  let data := Fahrzeug_to_dict self in
  <["kraftstoff" := kraftstoff]> data.

Definition Elektroauto_to_dict (self : Fahrzeug) (energiequelle : value) : gmap string value :=
  let data := Fahrzeug_to_dict self in
  <["energiequelle" := energiequelle]> data.

(** Dynamic dispatch of [f.to_dict()]. *)
Definition to_dict (self : Fahrzeug) : gmap string value :=
  match self with
  | Auto _ k => Auto_to_dict self k
  | Motorrad _ k => Motorrad_to_dict self k
  | Elektroauto _ e => Elektroauto_to_dict self e
  end.

(** ** Calling a constructor with [**data] *)

Definition Fahrzeug_params : list string :=
  ["marke"; "modell"; "baujahr"; "geschwindigkeit"; "beschleunigung"].
Definition Auto_params : list string := Fahrzeug_params ++ ["kraftstoff"].
Definition Motorrad_params : list string := Fahrzeug_params ++ ["kraftstoff"].
Definition Elektroauto_params : list string := Fahrzeug_params ++ ["energiequelle"].

(** Binding of keyword arguments to the parameters of [cls.__init__]: a key
    that is no parameter is rejected first (so is a key "self", which
    collides with the instance), then every parameter needs a value (there
    are no defaults).  The result gives each parameter its argument. *)
Definition bind_keywords (cls : string) (params : list string)
    (kw : gmap string value) : result (string → value) :=
  let unexpected : gset string := dom kw ∖ list_to_set params in
  let missing := filter (λ p, p ∉ dom kw) params in
  if decide (unexpected = ∅) then
    match missing with
    | [] => Ok (λ p, default VNone (kw !! p))
    | _ :: _ => Raise (TypeError_missing_arguments cls missing)
    end
  else Raise (TypeError_unexpected_keyword cls unexpected).

Definition Fahrzeug_init (arg : string → value) : Basis :=
  {| marke := arg "marke";
     modell := arg "modell";
     baujahr := arg "baujahr";
     geschwindigkeit := arg "geschwindigkeit";
     beschleunigung := arg "beschleunigung" |}.

(** [Auto] called with the keyword arguments [**data]. *)
Definition Auto_new (data : gmap string value) : result Fahrzeug :=
  arg ← bind_keywords "Auto" Auto_params data;
  mret (Auto (Fahrzeug_init arg) (arg "kraftstoff")).

(** [Motorrad] called with the keyword arguments [**data]. *)
Definition Motorrad_new (data : gmap string value) : result Fahrzeug :=
  arg ← bind_keywords "Motorrad" Motorrad_params data;
  mret (Motorrad (Fahrzeug_init arg) (arg "kraftstoff")).

(** [Elektroauto] called with the keyword arguments [**data]. *)
Definition Elektroauto_new (data : gmap string value) : result Fahrzeug :=
  arg ← bind_keywords "Elektroauto" Elektroauto_params data;
  mret (Elektroauto (Fahrzeug_init arg) (arg "energiequelle")).

(** ** from_dict *)

(** [typ == name]: only the string [name] itself is equal to it. *)
Definition str_eq (typ : value) (name : string) : bool :=
  match typ with
  | VStr s => bool_decide (s = name)
  | _ => false
  end.

(** [Fahrzeug.from_dict(data)] as a function of what [data] holds.
    [data.get] exists on dictionaries only; [data.get("typ", None)] is [None]
    for an absent key.  [Store.from_dict] below is the same method on
    dictionaries that can be changed in place. *)
Definition from_dict (data : value) : result (option Fahrzeug) :=
  match data with
  | VDict d =>
      let typ := default VNone (d !! "typ") in
      let data := d in                 (* dict(data) *)
      let data := delete "typ" data in (* data.pop("typ", None) *)
      if str_eq typ "Auto" then Some <$> Auto_new data
      else if str_eq typ "Elektroauto" then Some <$> Elektroauto_new data
      else if str_eq typ "Motorrad" then Some <$> Motorrad_new data
      else Ok None
  | _ => Raise (AttributeError "get")
  end.

(** ** Stateful code

    Code that changes objects, the file or the terminal is a function from
    the state before to the state after, with the value returned or the
    exception raised. *)

Definition M (S A : Type) : Type := S → S * result A.

#[global] Instance M_ret {S} : MRet (M S) := λ A a s, (s, Ok a).
#[global] Instance M_bind {S} : MBind (M S) := λ A B f m s,
  match m s with
  | (s', Ok a) => f a s'
  | (s', Raise e) => (s', Raise e)
  end.

#[global] Instance M_fmap {S} : FMap (M S) := λ A B f m s,
  match m s with
  | (s', r) => (s', f <$> r)
  end.

(** A pure computation that may raise. *)
Definition lift {S A} (r : result A) : M S A := λ s, (s, r).

(** [try: body except catches as e: handler e] *)
Definition try_except {S A} (body : M S A) (catches : exn → bool)
    (handler : exn → M S A) : M S A := λ s,
  match body s with
  | (s', Raise e) => if catches e then handler e s' else (s', Raise e)
  | (s', Ok a) => (s', Ok a)
  end.

(** [except Exception]: every exception of the model is an [Exception]. *)
Definition Exception (e : exn) : bool := true.

(** [for x in items: body x] *)
Fixpoint for_each {S A} (items : list A) (body : A → M S unit) : M S unit :=
  match items with
  | [] => mret tt
  | x :: rest => body x ;; for_each rest body
  end.

(** ** from_dict on the object store

    Dictionaries are mutable objects: a variable holds a reference, and
    [pop] changes the object that every holder of the reference sees.  The
    store maps the references in use to the dictionaries they point to; the
    argument of a call is one of them. *)

Module Store.

Definition ref := nat.

(** [data.get(key, None)] *)
Definition get (data : ref) (key : string) : M (gmap ref (gmap string value)) value :=
  λ h, (h, Ok (default VNone ((h !!! data) !! key))).

(** [dict(data)]: a new dictionary with the entries of [data]. *)
Definition dict (data : ref) : M (gmap ref (gmap string value)) ref :=
  λ h, let new := fresh (dom h) in (<[new := h !!! data]> h, Ok new).

(** [data.pop(key, None)] removes the entry in place. *)
Definition pop (data : ref) (key : string) : M (gmap ref (gmap string value)) unit :=
  λ h, (alter (delete key) data h, Ok tt).

(** A constructor call with [**data] reads the entries of [data]. *)
Definition call (new : gmap string value → result Fahrzeug) (data : ref) :
    M (gmap ref (gmap string value)) Fahrzeug :=
  λ h, (h, new (h !!! data)).

Definition from_dict (data : ref) : M (gmap ref (gmap string value)) (option Fahrzeug) :=
  typ ← get data "typ";
  data ← dict data;
  pop data "typ";;
  if str_eq typ "Auto" then Some <$> call Auto_new data
  else if str_eq typ "Elektroauto" then Some <$> call Elektroauto_new data
  else if str_eq typ "Motorrad" then Some <$> call Motorrad_new data
  else mret None.

End Store.

(** ** Text of a vehicle *)

Section Text.

(** [repr] of the built-in types: the digits CPython prints for a [float]
    and the display of lists and dictionaries are computed by the
    interpreter, not by this program. *)
Variable repr : value → string.

(** [str(v)], which is what [{v}] in an f-string inserts. *)
Definition str (v : value) : string :=
  match v with
  | VStr s => s
  | VInt z => pretty z
  | VBool true => "True"
  | VBool false => "False"
  | VNone => "None"
  | VFloat _ | VList _ | VDict _ => repr v
  end.

Definition Fahrzeug_beschleunigen (self : Fahrzeug) : string :=
  " " +:+ str (marke (basis self)) +:+ " " +:+ str (modell (basis self))
  +:+ " beschleunigt in " +:+ str (beschleunigung (basis self))
  +:+ " Sekunden auf 100 km/h!".

Definition Auto_beschleunigen (self : Fahrzeug) : string :=
  Fahrzeug_beschleunigen self.
Definition Motorrad_beschleunigen (self : Fahrzeug) : string :=
  Fahrzeug_beschleunigen self.
Definition Elektroauto_beschleunigen (self : Fahrzeug) : string :=
  Fahrzeug_beschleunigen self.

(** Dynamic dispatch of [f.beschleunigen()]. *)
Definition beschleunigen (self : Fahrzeug) : string :=
  match self with
  | Auto _ _ => Auto_beschleunigen self
  | Motorrad _ _ => Motorrad_beschleunigen self
  | Elektroauto _ _ => Elektroauto_beschleunigen self
  end.

Definition Fahrzeug__str__ (self : Fahrzeug) : string :=
  str (marke (basis self)) +:+ " " +:+ str (modell (basis self))
  +:+ " (" +:+ str (baujahr (basis self)) +:+ ") | "
  +:+ str (geschwindigkeit (basis self)) +:+ " km/h".

Definition Auto__str__ (self : Fahrzeug) (kraftstoff : value) : string :=
  Fahrzeug__str__ self +:+ " | Kraftstoff: " +:+ str kraftstoff.
Definition Motorrad__str__ (self : Fahrzeug) (kraftstoff : value) : string :=
  Fahrzeug__str__ self +:+ " | Kraftstoff: " +:+ str kraftstoff.
Definition Elektroauto__str__ (self : Fahrzeug) (energiequelle : value) : string :=
  Fahrzeug__str__ self +:+ " | Energiequelle: " +:+ str energiequelle.

(** Dynamic dispatch of [str(f)]. *)
Definition __str__ (self : Fahrzeug) : string :=
  match self with
  | Auto _ k => Auto__str__ self k
  | Motorrad _ k => Motorrad__str__ self k
  | Elektroauto _ e => Elektroauto__str__ self e
  end.

End Text.

(** [needle in text] *)
Fixpoint contains (needle text : string) : bool :=
  String.prefix needle text ||
  match text with
  | EmptyString => false
  | String _ rest => contains needle rest
  end.

(** ** Fahrzeugverwaltung *)

(** What the file [DATEI] holds, as [open] and [json.load] see it.  The
    encoding of a JSON document as text is left to the [json] module: a
    document that was dumped is loaded as the same value. *)
Inductive File : Type :=
| File_absent                  (* [open] raises [FileNotFoundError] *)
| File_unreadable (e : exn)    (* [open], [read] or [json.load] raises [e]: a missing
                                  permission, bytes that are no text, nesting too deep *)
| File_not_json                (* [json.load] raises [JSONDecodeError]; so does an empty file *)
| File_json (daten : value).

(** What [print] wrote.  The text of an exception is CPython's, so a
    diagnostic keeps the exception itself. *)
Inductive Output : Type :=
| Line (text : string)
| Fehler_beim_Speichern (e : exn)     (* " Fehler beim Speichern: {e}" *)
| Eintrag_uebersprungen (e : exn).    (* " Ungueltiger Eintrag uebersprungen: {e}" *)

(** The state of a run: the attribute [self.fahrzeuge] of the one
    [Fahrzeugverwaltung], the file [DATEI], and the terminal. *)
Record State : Type := {
  fahrzeuge : list Fahrzeug;
  datei : File;
  stdout : list Output
}.

Definition get_fahrzeuge : M State (list Fahrzeug) := λ s, (s, Ok (fahrzeuge s)).

Definition set_fahrzeuge (l : list Fahrzeug) : M State unit := λ s,
  ({| fahrzeuge := l; datei := datei s; stdout := stdout s |}, Ok tt).

(** [self.fahrzeuge.append(f)] *)
Definition fahrzeuge_append (f : Fahrzeug) : M State unit := λ s,
  ({| fahrzeuge := fahrzeuge s ++ [f]; datei := datei s; stdout := stdout s |}, Ok tt).

Definition UnicodeEncodeError : exn := OtherException "UnicodeEncodeError".

(** The second byte of a surrogate after the lead byte ED: A0 to BF. *)
Definition surrogate_second (a : Ascii.ascii) : bool :=
  match a with
  | Ascii.Ascii _ _ _ _ _ true false true => true
  | _ => false
  end.

(** Whether the terminal can encode a text: it holds no surrogate. *)
Fixpoint encodable (text : string) : bool :=
  match text with
  | EmptyString => true
  | String a rest =>
      match rest with
      | String b _ =>
          negb (Ascii.eqb a (Ascii.ascii_of_nat 237) && surrogate_second b)
          && encodable rest
      | EmptyString => true
      end
  end.

(** Whether the terminal can encode what is to be printed.  The message of
    an exception of [from_dict] holds data of the file only when a key is no
    parameter of the constructor: CPython names the first such key of the
    dictionary, and the model, which keeps no order of the keys, takes the
    message to be encodable when every such key is.  The message of an error
    of [open] or [json.dump] names [DATEI] and nothing of the data. *)
Definition shown (o : Output) : bool :=
  match o with
  | Line text => encodable text
  | Fehler_beim_Speichern _ => true
  | Eintrag_uebersprungen (TypeError_unexpected_keyword _ names) =>
      bool_decide (set_Forall (λ k, encodable k = true) names)
  | Eintrag_uebersprungen _ => true
  end.

(** [print(text)]: the text is encoded as a whole before anything is
    written. *)
Definition print (o : Output) : M State unit := λ s,
  if shown o then
    ({| fahrzeuge := fahrzeuge s; datei := datei s; stdout := stdout s ++ [o] |}, Ok tt)
  else (s, Raise UnicodeEncodeError).

(** [with open(DATEI, "r") as file: json.load(file)] *)
Definition json_load : M State value := λ s,
  (s, match datei s with
      | File_absent => Raise FileNotFoundError
      | File_unreadable e => Raise e
      | File_not_json => Raise JSONDecodeError
      | File_json daten => Ok daten
      end).

(** Whether the file system lets a write through; a failed write leaves
    some file behind ([open] with ["w"] truncates first). *)
Inductive WriteOutcome : Type :=
| Write_ok
| Write_fails (e : exn) (remains : File).

(** [with open(DATEI, "w") as file: json.dump(daten, file, indent=4)] *)
Definition json_dump (w : WriteOutcome) (daten : value) : M State unit := λ s,
  match w with
  | Write_ok =>
      ({| fahrzeuge := fahrzeuge s; datei := File_json daten; stdout := stdout s |}, Ok tt)
  | Write_fails e remains =>
      ({| fahrzeuge := fahrzeuge s; datei := remains; stdout := stdout s |}, Raise e)
  end.

(** The code points of a string (a byte [10xxxxxx] continues a code point). *)
Definition continuation (a : Ascii.ascii) : bool :=
  match a with
  | Ascii.Ascii _ _ _ _ _ _ false true => true
  | _ => false
  end.

Definition continues (s : string) : bool :=
  match s with
  | String b _ => continuation b
  | EmptyString => false
  end.

Fixpoint chars (s : string) : list string :=
  match s with
  | EmptyString => []
  | String a rest =>
      if continues rest then
        match chars rest with
        | c :: cs => String a c :: cs
        | [] => [String a EmptyString]
        end
      else String a EmptyString :: chars rest
  end.

(** What [for item in daten] goes through.  A dictionary yields its keys
    (Python in insertion order, which the map does not record; all of them
    are strings), a string its characters. *)
Definition iter (daten : value) : result (list value) :=
  match daten with
  | VList l => Ok l
  | VDict d => Ok (VStr <$> elements (dom d))
  | VStr s => Ok (VStr <$> chars s)
  | VNone | VBool _ | VInt _ | VFloat _ => Raise (TypeError_not_iterable daten)
  end.

Definition speichern (w : WriteOutcome) : M State unit :=
  try_except
    (fahrzeuge ← get_fahrzeuge;
     json_dump w (VList ((λ f, VDict (to_dict f)) <$> fahrzeuge)))
    Exception
    (λ e, print (Fehler_beim_Speichern e)).

Definition laden : M State unit :=
  try_except
    (daten ← json_load;
     set_fahrzeuge [];;
     items ← lift (iter daten);
     for_each items (λ item,
       try_except
         (fzg ← lift (from_dict item);
          match fzg with
          | Some fzg => fahrzeuge_append fzg
          | None => mret tt
          end)
         Exception
         (λ e, print (Eintrag_uebersprungen e))))
    (λ e, match e with
          | FileNotFoundError | JSONDecodeError => true
          | _ => false
          end)
    (λ _, mret tt).

(** [Fahrzeugverwaltung()] *)
Definition Fahrzeugverwaltung__init__ : M State unit :=
  set_fahrzeuge [];;
  laden.

Definition fahrzeug_hinzufuegen (fahrzeug : Fahrzeug) (w : WriteOutcome) : M State unit :=
  fahrzeuge_append fahrzeug;;
  speichern w.

Section Anzeige.

Variable repr : value → string.

Definition newline : string := String (Ascii.ascii_of_nat 10) EmptyString.

Definition alle_fahrzeuge_anzeigen : M State unit :=
  fahrzeuge ← get_fahrzeuge;
  match fahrzeuge with
  | [] => print (Line " Keine Fahrzeuge vorhanden.")
  | _ :: _ =>
      print (Line (newline +:+ " Fahrzeugliste:"));;
      for_each fahrzeuge (λ f,
        print (Line ("  - " +:+ __str__ repr f +:+ " | Beschleunigung: "
                     +:+ str repr (beschleunigung (basis f)) +:+ " Sek")))
  end.

Definition beschleunigungsinfo : M State unit :=
  fahrzeuge ← get_fahrzeuge;
  match fahrzeuge with
  | [] => print (Line " Keine Fahrzeuge vorhanden.")
  | _ :: _ =>
      print (Line (newline +:+ " Beschleunigung der Fahrzeuge:"));;
      for_each fahrzeuge (λ f, print (Line ("  " +:+ beschleunigen repr f)))
  end.

End Anzeige.

(** ** Input functions *)

(** What the terminal shows: what [print] wrote, and the prompts of
    [input], which end no line.  The prompts and the complaints of the input
    functions are the program's own texts: the terminal encodes them. *)
Inductive Shown : Type :=
| Printed (o : Output)
| Prompt (text : string).

(** The terminal: what it has shown, and the lines that will be typed.
    [input] takes the next line; when none is left it raises [EOFError]. *)
Record Terminal : Type := {
  screen : list Shown;
  keyboard : list string
}.

Definition EOFError : exn := OtherException "EOFError".

Definition comma : Ascii.ascii := Ascii.ascii_of_nat 44.
Definition point : Ascii.ascii := Ascii.ascii_of_nat 46.

(** [s.replace(",", ".")] *)
Fixpoint replace_comma (s : string) : string :=
  match s with
  | EmptyString => EmptyString
  | String a rest =>
      String (if Ascii.eqb a comma then point else a) (replace_comma rest)
  end.

Section Eingabe.

(** The built-in functions that the input functions call: [s.strip()],
    [int(s)] and [float(s)], the last two with [None] for a [ValueError]. *)
Variable strip : string → string.
Variable parse_int : string → option Z.
Variable parse_float : string → option float.

(** The loop of [eingabe_string], entered with the current [wert]; every
    turn takes one line from the keyboard. *)
Fixpoint eingabe_string_while (prompt wert : string) (keys : list string)
    (scr : list Shown) : Terminal * result string :=
  if bool_decide (strip wert = "") then
    match keys with
    | [] => ({| screen := scr ++ [Prompt prompt]; keyboard := [] |}, Raise EOFError)
    | line :: keys =>
        let wert := strip line in
        let scr := scr ++ [Prompt prompt] in
        let scr :=
          if bool_decide (wert = "")
          then scr ++ [Printed (Line " Eingabe darf nicht leer sein.")]
          else scr in
        eingabe_string_while prompt wert keys scr
    end
  else ({| screen := scr; keyboard := keys |}, Ok wert).

Definition eingabe_string (prompt : string) : M Terminal string := λ t,
  eingabe_string_while prompt "" (keyboard t) (screen t).

Fixpoint eingabe_int_while (prompt : string) (keys : list string)
    (scr : list Shown) : Terminal * result Z :=
  match keys with
  | [] => ({| screen := scr ++ [Prompt prompt]; keyboard := [] |}, Raise EOFError)
  | eingabe :: keys =>
      let scr := scr ++ [Prompt prompt] in
      if bool_decide (strip eingabe = "") then
        eingabe_int_while prompt keys
          (scr ++ [Printed (Line " Eingabe darf nicht leer sein.")])
      else
        match parse_int eingabe with
        | Some z => ({| screen := scr; keyboard := keys |}, Ok z)
        | None =>
            eingabe_int_while prompt keys
              (scr ++ [Printed (Line " Bitte eine gültige Zahl eingeben.")])
        end
  end.

Definition eingabe_int (prompt : string) : M Terminal Z := λ t,
  eingabe_int_while prompt (keyboard t) (screen t).

Fixpoint eingabe_float_while (prompt : string) (keys : list string)
    (scr : list Shown) : Terminal * result float :=
  match keys with
  | [] => ({| screen := scr ++ [Prompt prompt]; keyboard := [] |}, Raise EOFError)
  | line :: keys =>
      let eingabe := replace_comma line in
      let scr := scr ++ [Prompt prompt] in
      if bool_decide (strip eingabe = "") then
        eingabe_float_while prompt keys
          (scr ++ [Printed (Line " Eingabe darf nicht leer sein.")])
      else
        match parse_float eingabe with
        | Some f => ({| screen := scr; keyboard := keys |}, Ok f)
        | None =>
            eingabe_float_while prompt keys
              (scr ++ [Printed (Line " Bitte eine gültige Kommazahl eingeben.")])
        end
  end.

Definition eingabe_float (prompt : string) : M Terminal float := λ t,
  eingabe_float_while prompt (keyboard t) (screen t).

End Eingabe.

(** ** The menu *)

(** [input(prompt)] *)
Definition input (prompt : string) : M Terminal string := λ t,
  match keyboard t with
  | [] => ({| screen := screen t ++ [Prompt prompt]; keyboard := [] |}, Raise EOFError)
  | line :: keys => ({| screen := screen t ++ [Prompt prompt]; keyboard := keys |}, Ok line)
  end.

(** The state of a run of the program: the attribute [fahrzeuge] of the
    object [verwaltung], the file [DATEI], the terminal, and how the writes
    to come will end (when the list is used up, they go through). *)
Record Session : Type := {
  verwaltung : list Fahrzeug;
  file : File;
  terminal : Terminal;
  writes : list WriteOutcome
}.

(** A method of [verwaltung]; what it prints appears on the screen. *)
Definition call_store {A} (m : M State A) : M Session A := λ σ,
  match m {| fahrzeuge := verwaltung σ; datei := file σ; stdout := [] |} with
  | (s, r) =>
      ({| verwaltung := fahrzeuge s;
          file := datei s;
          terminal := {| screen := screen (terminal σ) ++ (Printed <$> stdout s);
                         keyboard := keyboard (terminal σ) |};
          writes := writes σ |}, r)
  end.

Definition call_terminal {A} (m : M Terminal A) : M Session A := λ σ,
  match m (terminal σ) with
  | (t, r) =>
      ({| verwaltung := verwaltung σ; file := file σ; terminal := t;
          writes := writes σ |}, r)
  end.

Definition next_write : M Session WriteOutcome := λ σ,
  match writes σ with
  | [] => (σ, Ok Write_ok)
  | w :: ws =>
      ({| verwaltung := verwaltung σ; file := file σ; terminal := terminal σ;
          writes := ws |}, Ok w)
  end.

(** [print(text)] in the menu, whose texts are the program's own: the
    terminal encodes them. *)
Definition say (text : string) : M Session unit := λ σ,
  ({| verwaltung := verwaltung σ;
      file := file σ;
      terminal := {| screen := screen (terminal σ) ++ [Printed (Line text)];
                     keyboard := keyboard (terminal σ) |};
      writes := writes σ |}, Ok tt).

Section Menue.

Variable strip : string → string.
Variable parse_int : string → option Z.
Variable parse_float : string → option float.
Variable repr : value → string.

(** [verwaltung.fahrzeug_hinzufuegen(fahrzeug)] *)
Definition hinzufuegen (fahrzeug : Fahrzeug) : M Session unit :=
  w ← next_write;
  call_store (fahrzeug_hinzufuegen fahrzeug w).

(** The questions of the options 1 to 3, which differ in the last prompt
    and in the class. *)
Definition Auto_eingeben : M Session Fahrzeug :=
  marke ← call_terminal (eingabe_string strip " Marke: ");
  modell ← call_terminal (eingabe_string strip " Modell: ");
  baujahr ← call_terminal (eingabe_int strip parse_int " Baujahr: ");
  geschwindigkeit ←
    call_terminal (eingabe_int strip parse_int " Höchstgeschwindigkeit (km/h): ");
  beschleunigung ←
    call_terminal
      (eingabe_float strip parse_float " Beschleunigung (Sekunden auf 100 km/h): ");
  kraftstoff ← call_terminal (eingabe_string strip " Kraftstoff: ");
  mret (Auto {| marke := VStr marke; modell := VStr modell; baujahr := VInt baujahr;
                geschwindigkeit := VInt geschwindigkeit;
                beschleunigung := VFloat beschleunigung |} (VStr kraftstoff)).

Definition Elektroauto_eingeben : M Session Fahrzeug :=
  marke ← call_terminal (eingabe_string strip " Marke: ");
  modell ← call_terminal (eingabe_string strip " Modell: ");
  baujahr ← call_terminal (eingabe_int strip parse_int " Baujahr: ");
  geschwindigkeit ←
    call_terminal (eingabe_int strip parse_int " Höchstgeschwindigkeit (km/h): ");
  beschleunigung ←
    call_terminal
      (eingabe_float strip parse_float " Beschleunigung (Sekunden auf 100 km/h): ");
  energiequelle ← call_terminal (eingabe_string strip " Energiequelle: ");
  mret (Elektroauto
          {| marke := VStr marke; modell := VStr modell; baujahr := VInt baujahr;
             geschwindigkeit := VInt geschwindigkeit;
             beschleunigung := VFloat beschleunigung |} (VStr energiequelle)).

Definition Motorrad_eingeben : M Session Fahrzeug :=
  marke ← call_terminal (eingabe_string strip " Marke: ");
  modell ← call_terminal (eingabe_string strip " Modell: ");
  baujahr ← call_terminal (eingabe_int strip parse_int " Baujahr: ");
  geschwindigkeit ←
    call_terminal (eingabe_int strip parse_int " Höchstgeschwindigkeit (km/h): ");
  beschleunigung ←
    call_terminal
      (eingabe_float strip parse_float " Beschleunigung (Sekunden auf 100 km/h): ");
  kraftstoff ← call_terminal (eingabe_string strip " Kraftstoff: ");
  mret (Motorrad
          {| marke := VStr marke; modell := VStr modell; baujahr := VInt baujahr;
             geschwindigkeit := VInt geschwindigkeit;
             beschleunigung := VFloat beschleunigung |} (VStr kraftstoff)).

(** The branches on [auswahl]; the result tells whether the loop ends
    ([break]). *)
Definition auswahl_ausfuehren (auswahl : string) : M Session bool :=
  if bool_decide (auswahl = "1") then
    fahrzeug ← Auto_eingeben; hinzufuegen fahrzeug;; mret false
  else if bool_decide (auswahl = "2") then
    fahrzeug ← Elektroauto_eingeben; hinzufuegen fahrzeug;; mret false
  else if bool_decide (auswahl = "3") then
    fahrzeug ← Motorrad_eingeben; hinzufuegen fahrzeug;; mret false
  else if bool_decide (auswahl = "4") then
    call_store (alle_fahrzeuge_anzeigen repr);; mret false
  else if bool_decide (auswahl = "5") then
    call_store (beschleunigungsinfo repr);; mret false
  else if bool_decide (auswahl = "6") then
    say " Programm beendet.";; mret true
  else
    say " Ungültige Eingabe. Bitte erneut versuchen.";; mret false.

(** One turn of [while True]. *)
Definition menue : M Session bool :=
  say (newline +:+ "Menü Fahrzeugverwaltung:");;
  say "1. Auto hinzufügen";;
  say "2. Elektroauto hinzufügen";;
  say "3. Motorrad hinzufügen";;
  say "4. Alle Fahrzeuge anzeigen";;
  say "5. Beschleunigung der Fahrzeuge";;
  say "6. Beenden";;
  auswahl ← call_terminal (input "-> Option wählen: ");
  auswahl_ausfuehren auswahl.

(** [while True: ...], for at most [turns] turns: [None] when the loop has
    not ended by then. *)
Fixpoint main_while (turns : nat) (σ : Session) : option (Session * result unit) :=
  match turns with
  | 0 => None
  | S turns =>
      match menue σ with
      | (σ, Ok true) => Some (σ, Ok tt)
      | (σ, Ok false) => main_while turns σ
      | (σ, Raise e) => Some (σ, Raise e)
      end
  end.


End Menue.

(** ** Vocabulary of the properties *)

(** The vehicles that a list of stored items decodes to, and the
    diagnostics for the items on which [from_dict] raises, both in the order
    of the items. *)
Definition decoded (items : list value) : list Fahrzeug :=
  items ≫= λ item,
    match from_dict item with
    | Ok (Some fzg) => [fzg]
    | Ok None | Raise _ => []
    end.

Definition diagnostics (items : list value) : list Output :=
  items ≫= λ item,
    match from_dict item with
    | Raise e => [Eintrag_uebersprungen e]
    | Ok _ => []
    end.

(** What the loop of [laden] makes of a list of stored items: the vehicles
    it appends, the diagnostics it prints, and how it ends.  It ends with
    [UnicodeEncodeError] at the first diagnostic that the terminal cannot
    encode. *)
Fixpoint loaded (items : list value) : list Fahrzeug * list Output * result unit :=
  match items with
  | [] => ([], [], Ok tt)
  | item :: rest =>
      match from_dict item with
      | Ok (Some fzg) => let '(fz, out, r) := loaded rest in (fzg :: fz, out, r)
      | Ok None => loaded rest
      | Raise e =>
          if shown (Eintrag_uebersprungen e)
          then let '(fz, out, r) := loaded rest in (fz, Eintrag_uebersprungen e :: out, r)
          else ([], [], Raise UnicodeEncodeError)
      end
  end.

(** The part of a list of outputs that is printed: the outputs before the
    first that the terminal cannot encode. *)
Fixpoint shown_prefix (os : list Output) : list Output :=
  match os with
  | [] => []
  | o :: rest => if shown o then o :: shown_prefix rest else []
  end.

(** The state [s] with the file holding the JSON array [items]. *)
Definition stored (items : list value) (s : State) : State :=
  {| fahrzeuge := fahrzeuge s; datei := File_json (VList items); stdout := stdout s |}.

(** The parameters of the constructor that a value of "typ" selects. *)
Definition params_of (name : string) : option (list string) :=
  if bool_decide (name = "Auto") then Some Auto_params
  else if bool_decide (name = "Elektroauto") then Some Elektroauto_params
  else if bool_decide (name = "Motorrad") then Some Motorrad_params
  else None.

(** The key of the attribute that a class adds, its value, and the words
    before it in [__str__]. *)
Definition own_key (v : Fahrzeug) : string :=
  match v with
  | Auto _ _ | Motorrad _ _ => "kraftstoff"
  | Elektroauto _ _ => "energiequelle"
  end.

Definition own_value (v : Fahrzeug) : value :=
  match v with
  | Auto _ x | Motorrad _ x | Elektroauto _ x => x
  end.

Definition own_label (v : Fahrzeug) : string :=
  match v with
  | Auto _ _ | Motorrad _ _ => " | Kraftstoff: "
  | Elektroauto _ _ => " | Energiequelle: "
  end.

(** The line of a vehicle in [alle_fahrzeuge_anzeigen] and in
    [beschleunigungsinfo]. *)
Definition list_line (repr : value → string) (f : Fahrzeug) : Output :=
  Line ("  - " +:+ __str__ repr f +:+ " | Beschleunigung: "
        +:+ str repr (beschleunigung (basis f)) +:+ " Sek").

Definition info_line (repr : value → string) (f : Fahrzeug) : Output :=
  Line ("  " +:+ beschleunigen repr f).

(** What [alle_fahrzeuge_anzeigen] and [beschleunigungsinfo] set out to
    print for a collection. *)
Definition listing (repr : value → string) (fz : list Fahrzeug) : list Output :=
  match fz with
  | [] => [Line " Keine Fahrzeuge vorhanden."]
  | _ :: _ => Line (newline +:+ " Fahrzeugliste:") :: (list_line repr <$> fz)
  end.

Definition info_listing (repr : value → string) (fz : list Fahrzeug) : list Output :=
  match fz with
  | [] => [Line " Keine Fahrzeuge vorhanden."]
  | _ :: _ => Line (newline +:+ " Beschleunigung der Fahrzeuge:")
              :: (info_line repr <$> fz)
  end.

(** JSON values that [for] cannot go through. *)
Definition scalar (v : value) : bool :=
  match v with
  | VNone | VBool _ | VInt _ | VFloat _ => true
  | VStr _ | VList _ | VDict _ => false
  end.

(** What the input functions show for the lines they turn down: the prompt
    and the complaint. *)
Definition leer : Shown := Printed (Line " Eingabe darf nicht leer sein.").
Definition keine_Zahl : Shown := Printed (Line " Bitte eine gültige Zahl eingeben.").
Definition keine_Kommazahl : Shown :=
  Printed (Line " Bitte eine gültige Kommazahl eingeben.").

(** A text that is not blank; a vehicle as the menu makes it: texts that
    are not blank for marke, modell and the attribute of the class, integers
    for baujahr and geschwindigkeit, a float for beschleunigung. *)
Definition filled (strip : string → string) (v : value) : Prop :=
  ∃ s, v = VStr s ∧ strip s ≠ "".

Definition typed (strip : string → string) (f : Fahrzeug) : Prop :=
  filled strip (marke (basis f)) ∧ filled strip (modell (basis f)) ∧
  (∃ z, baujahr (basis f) = VInt z) ∧ (∃ z, geschwindigkeit (basis f) = VInt z) ∧
  (∃ x, beschleunigung (basis f) = VFloat x) ∧ filled strip (own_value f).

(** From [σ] to [σ']: vehicles as the menu makes them were put at the end of
    the collection, and lines were taken from the front of the input. *)
Definition extends (strip : string → string) (σ σ' : Session) : Prop :=
  (∃ new, verwaltung σ' = verwaltung σ ++ new ∧ Forall (typed strip) new) ∧
  (∃ used, keyboard (terminal σ) = used ++ keyboard (terminal σ')).

(** [m] only extends, returns values in [Q], and raises nothing but
    [EOFError] at the end of the input and the [UnicodeEncodeError] of a
    [print]. *)
Definition safe {A} (strip : string → string) (m : M Session A) (Q : A → Prop) : Prop :=
  ∀ σ,
    extends strip σ (m σ).1 ∧
    match (m σ).2 with
    | Ok a => Q a
    | Raise e =>
        (e = EOFError ∧ keyboard (terminal (m σ).1) = []) ∨ e = UnicodeEncodeError
    end.

(** ** Sample data *)

(** The car of the scenario: Toyota Yaris, 2020, 170 km/h, 9.5 s, petrol. *)
Definition toyota : Fahrzeug :=
  Auto {| marke := VStr "Toyota"; modell := VStr "Yaris"; baujahr := VInt 2020;
          geschwindigkeit := VInt 170; beschleunigung := VFloat 9.5 |}
       (VStr "Petrol").

Definition zoe_basis : Basis :=
  {| marke := VStr "Renault"; modell := VStr "Zoe"; baujahr := VInt 2021;
     geschwindigkeit := VInt 140; beschleunigung := VInt 11 |}.

(** A stand-in for [repr] in examples whose texts format strings and
    integers only. *)
Definition no_repr : value → string := λ _, "".

(** A run that starts without a file and without vehicles. *)
Definition empty_store : State :=
  {| fahrzeuge := []; datei := File_absent; stdout := [] |}.

(** A store that holds the Toyota although there is no file: the state after
    adding the car to the empty store while the write failed. *)
Definition unsaved_toyota : State :=
  (fahrzeug_hinzufuegen toyota
     (Write_fails (OtherException "Permission denied") File_absent) empty_store).1.

(** A record of an unknown kind. *)
Definition unicycle : gmap string value :=
  <["typ" := VStr "Unicycle"]> (<["marke" := VStr "Uno"]> ∅).

(** A file with the Toyota, the record of an unknown kind, a record of kind
    "Auto" without attributes, and a motorcycle. *)
Definition mixed_items : list value :=
  [VDict (to_dict toyota); VDict unicycle; VDict {["typ" := VStr "Auto"]};
   VDict (to_dict (Motorrad zoe_basis (VStr "Benzin")))].

(** A record of kind "Auto" with one key more, the lone surrogate U+D800
    (in a file: the escape \ud800), before the record of the Toyota. *)
Definition surrogate : string :=
  String (Ascii.ascii_of_nat 237)
    (String (Ascii.ascii_of_nat 160) (String (Ascii.ascii_of_nat 128) EmptyString)).

Definition surrogate_items : list value :=
  [VDict (<[surrogate := VInt 1]> {["typ" := VStr "Auto"]}); VDict (to_dict toyota)].

(** An object store with the dictionary of the Toyota at reference 0. *)
Definition toyota_store : gmap Store.ref (gmap string value) :=
  {[ 0 := to_dict toyota ]}.

(** Stand-ins for [strip], [int] and [float] in examples: lines without
    blanks at their ends, which [strip] leaves as they are; the numerals
    "2020" and "170"; the numeral "9.5". *)
Definition sample_strip : string → string := λ s, s.

Definition sample_int (s : string) : option Z :=
  if bool_decide (s = "2020") then Some 2020%Z
  else if bool_decide (s = "170") then Some 170%Z
  else None.

Definition sample_float (s : string) : option float :=
  if bool_decide (s = "9.5") then Some 9.5%float else None.

(** A run in which the Toyota is typed in, with a wrong choice, an empty
    line, a line that is no number and a comma on the way, and the program
    is left; and a run whose input ends in the middle of the questions. *)
Definition session (keys : list string) : Session :=
  {| verwaltung := []; file := File_absent;
     terminal := {| screen := []; keyboard := keys |}; writes := [] |}.

Definition toyota_keys : list string :=
  ["7"; "1"; "Toyota"; ""; "Yaris"; "x"; "2020"; "170"; "9,5"; "Petrol"; "6"; "4"].

Definition toyota_run : Session * result unit :=
  default (session [], Ok tt)
    (main_while sample_strip sample_int sample_float no_repr 3 (session toyota_keys)).


(** * Properties *)

(** ** Encoding and decoding *)

Lemma from_dict_to_dict_inv (v : Fahrzeug) :
  from_dict (VDict (to_dict v)) = Ok (Some v).
Proof. destruct v as [[]|[]|[]]; vm_compute; reflexivity. Qed.

(** ** The loop of [laden] *)

Lemma decoded_app (l1 l2 : list value) :
  decoded (l1 ++ l2) = decoded l1 ++ decoded l2.
Proof. apply bind_app. Qed.

Lemma diagnostics_app (l1 l2 : list value) :
  diagnostics (l1 ++ l2) = diagnostics l1 ++ diagnostics l2.
Proof. apply bind_app. Qed.

Lemma decoded_to_dict (l : list Fahrzeug) :
  decoded ((λ f, VDict (to_dict f)) <$> l) = l.
Proof.
  induction l as [|f l IH]; [reflexivity|].
  cbn [fmap list_fmap]. change (decoded (?x :: ?r)) with
    (match from_dict x with Ok (Some fzg) => [fzg] | _ => [] end ++ decoded r).
  by rewrite from_dict_to_dict_inv, IH.
Qed.

Lemma diagnostics_to_dict (l : list Fahrzeug) :
  diagnostics ((λ f, VDict (to_dict f)) <$> l) = [].
Proof.
  induction l as [|f l IH]; [reflexivity|].
  cbn [fmap list_fmap]. change (diagnostics (?x :: ?r)) with
    (match from_dict x with Raise e => [Eintrag_uebersprungen e] | _ => [] end
     ++ diagnostics r).
  by rewrite from_dict_to_dict_inv, IH.
Qed.

Lemma for_each_items (items : list value) (s : State) :
  Forall (λ o, shown o = true) (diagnostics items) →
  for_each items (λ item,
    try_except
      (fzg ← lift (from_dict item);
       match fzg with
       | Some fzg => fahrzeuge_append fzg
       | None => mret tt
       end)
      Exception
      (λ e, print (Eintrag_uebersprungen e))) s
  = ({| fahrzeuge := fahrzeuge s ++ decoded items;
        datei := datei s;
        stdout := stdout s ++ diagnostics items |}, Ok tt).
Proof.
  revert s. induction items as [|item items IH]; intros [fz d out] Hshown.
  - cbn. by rewrite !app_nil_r.
  - cbn [for_each]. unfold mbind at 1, M_bind.
    change (decoded (item :: items)) with
      (match from_dict item with Ok (Some fzg) => [fzg] | _ => [] end ++ decoded items).
    change (diagnostics (item :: items)) with
      (match from_dict item with Raise e => [Eintrag_uebersprungen e] | _ => [] end
       ++ diagnostics items) in *.
    apply Forall_app in Hshown as [Hitem Hitems].
    unfold try_except at 1, lift, mbind at 1, M_bind.
    destruct (from_dict item) as [[fzg|]|e]; cbn -[for_each decoded diagnostics shown].
    + rewrite IH by done. cbn -[decoded diagnostics]. by rewrite <- app_assoc.
    + rewrite IH by done. done.
    + pose proof (List.Forall_inv Hitem) as Hsh. cbv beta in Hsh. unfold print.
      rewrite Hsh.
      rewrite IH by done. cbn -[decoded diagnostics]. by rewrite <- app_assoc.
Qed.

Lemma for_each_cons {S A} (body : A → M S unit) (x : A) (l : list A) (s : S) :
  for_each (x :: l) body s =
    match body x s with
    | (s', Ok _) => for_each l body s'
    | (s', Raise e) => (s', Raise e)
    end.
Proof. reflexivity. Qed.

Lemma for_each_skip (before after : list value) (item : value) (s : State) :
  from_dict item = Ok None →
  for_each (before ++ item :: after) (λ item,
    try_except
      (fzg ← lift (from_dict item);
       match fzg with
       | Some fzg => fahrzeuge_append fzg
       | None => mret tt
       end)
      Exception
      (λ e, print (Eintrag_uebersprungen e))) s
  = for_each (before ++ after) (λ item,
    try_except
      (fzg ← lift (from_dict item);
       match fzg with
       | Some fzg => fahrzeuge_append fzg
       | None => mret tt
       end)
      Exception
      (λ e, print (Eintrag_uebersprungen e))) s.
Proof.
  intros Hnone. revert s. induction before as [|x before IH]; intros s.
  - cbn [app for_each]. unfold mbind at 1, M_bind.
    unfold try_except at 1, lift, mbind at 1, M_bind. by rewrite Hnone.
  - cbn [app]. rewrite !for_each_cons.
    destruct (try_except _ _ _ s) as [s1 [u|e]]; [apply IH|done].
Qed.

Lemma laden_json_list (s : State) (items : list value) :
  datei s = File_json (VList items) →
  Forall (λ o, shown o = true) (diagnostics items) →
  laden s = ({| fahrzeuge := decoded items;
                datei := datei s;
                stdout := stdout s ++ diagnostics items |}, Ok tt).
Proof.
  intros Hd Hshown. unfold laden, try_except.
  unfold mbind at 1, M_bind. unfold json_load. rewrite Hd.
  unfold mbind at 1, M_bind. unfold set_fahrzeuge.
  unfold mbind at 1, M_bind. unfold lift at 1. cbn [iter].
  rewrite for_each_items by done. cbn. by rewrite Hd.
Qed.

Lemma for_each_loaded (items : list value) (s : State) :
  for_each items (λ item,
    try_except
      (fzg ← lift (from_dict item);
       match fzg with
       | Some fzg => fahrzeuge_append fzg
       | None => mret tt
       end)
      Exception
      (λ e, print (Eintrag_uebersprungen e))) s
  = ({| fahrzeuge := fahrzeuge s ++ (loaded items).1.1;
        datei := datei s;
        stdout := stdout s ++ (loaded items).1.2 |}, (loaded items).2).
Proof.
  revert s. induction items as [|item items IH]; intros [fz d out].
  - cbn. by rewrite !app_nil_r.
  - rewrite for_each_cons. cbn [loaded].
    unfold try_except at 1, lift, mbind at 1, M_bind.
    destruct (from_dict item) as [[fzg|]|e]; cbn -[for_each loaded shown].
    + rewrite IH. destruct (loaded items) as [[f o] r]. cbn.
      by rewrite <- app_assoc.
    + by rewrite IH.
    + unfold print. destruct (shown (Eintrag_uebersprungen e)).
      * rewrite IH. destruct (loaded items) as [[f o] r]. cbn.
        by rewrite <- app_assoc.
      * cbn. by rewrite !app_nil_r.
Qed.

Lemma loaded_raises (items : list value) (e : exn) :
  (loaded items).2 = Raise e → e = UnicodeEncodeError.
Proof.
  induction items as [|item items IH]; cbn [loaded]; [done|].
  destruct (from_dict item) as [[fzg|]|e']; [| |destruct (shown _)];
    try destruct (loaded items) as [[f o] r]; cbn in *; try done; by intros [= <-].
Qed.

Lemma laden_stored_loaded (s : State) (items : list value) :
  datei s = File_json (VList items) →
  laden s = ({| fahrzeuge := (loaded items).1.1;
                datei := datei s;
                stdout := stdout s ++ (loaded items).1.2 |}, (loaded items).2).
Proof.
  intros Hd. unfold laden, try_except.
  unfold mbind at 1, M_bind. unfold json_load. rewrite Hd.
  unfold mbind at 1, M_bind. unfold set_fahrzeuge.
  unfold mbind at 1, M_bind. unfold lift at 1. cbn [iter].
  rewrite for_each_loaded. cbn [fahrzeuge datei stdout app]. rewrite Hd.
  destruct (loaded items).2 as [u|e] eqn:Hr; [done|].
  apply loaded_raises in Hr as ->. done.
Qed.

Lemma loaded_skip (before after : list value) (item : value) :
  from_dict item = Ok None →
  loaded (before ++ item :: after) = loaded (before ++ after).
Proof.
  intros Hnone. induction before as [|x before IH]; cbn [app loaded].
  - by rewrite Hnone.
  - by rewrite IH.
Qed.

Lemma laden_nothing_to_load (s : State) :
  datei s = File_absent ∨ datei s = File_not_json → laden s = (s, Ok tt).
Proof.
  intros Hd. unfold laden, try_except, mbind, M_bind, json_load.
  destruct Hd as [-> | ->]; reflexivity.
Qed.

Lemma speichern_ok (s : State) :
  speichern Write_ok s =
    ({| fahrzeuge := fahrzeuge s;
        datei := File_json (VList ((λ f, VDict (to_dict f)) <$> fahrzeuge s));
        stdout := stdout s |}, Ok tt).
Proof. reflexivity. Qed.

Lemma speichern_fails (s : State) (e : exn) (remains : File) :
  speichern (Write_fails e remains) s =
    ({| fahrzeuge := fahrzeuge s;
        datei := remains;
        stdout := stdout s ++ [Fehler_beim_Speichern e] |}, Ok tt).
Proof. reflexivity. Qed.

(** C1: decoding the dictionary that [to_dict] makes of a vehicle gives back
    a vehicle of the same class with the same attributes, for each of the
    three classes and whatever the attributes hold; so a collection that was
    saved is loaded again as it was, without a diagnostic. *)
Theorem decode_encode_roundtrip (v : Fahrzeug) :
  from_dict (VDict (to_dict v)) = Ok (Some v) ∧
  ∀ s : State,
    let saved := (speichern Write_ok s).1 in
    laden saved = (saved, Ok tt) ∧ fahrzeuge saved = fahrzeuge s.
Proof.
  split; [apply from_dict_to_dict_inv|].
  intros s saved. subst saved. rewrite speichern_ok. cbn [fst].
  split; [|reflexivity].
  rewrite (laden_json_list _ ((λ f, VDict (to_dict f)) <$> fahrzeuge s))
    by (by rewrite ?diagnostics_to_dict).
  cbn [fahrzeuge datei stdout].
  by rewrite decoded_to_dict, diagnostics_to_dict, app_nil_r.
Qed.

(** C2, as stated, fails: the dictionary of the Toyota has no key "kind";
    its discriminator is under "typ". *)
Lemma to_dict_no_kind :
  to_dict toyota !! "kind" = None ∧ to_dict toyota !! "typ" = Some (VStr "Auto").
Proof. split; vm_compute; reflexivity. Qed.

(** C2, amended: [to_dict] puts the name of the class under the key "typ",
    the five shared attributes under "marke", "modell", "baujahr",
    "geschwindigkeit" and "beschleunigung", and the attribute of the class
    under "kraftstoff" (Auto, Motorrad) or "energiequelle" (Elektroauto);
    the dictionary has these seven keys and no other. *)
Theorem to_dict_entries (v : Fahrzeug) :
  to_dict v !! "typ" = Some (VStr (class_name v)) ∧
  class_name v ∈ ["Auto"; "Elektroauto"; "Motorrad"] ∧
  to_dict v !! "marke" = Some (marke (basis v)) ∧
  to_dict v !! "modell" = Some (modell (basis v)) ∧
  to_dict v !! "baujahr" = Some (baujahr (basis v)) ∧
  to_dict v !! "geschwindigkeit" = Some (geschwindigkeit (basis v)) ∧
  to_dict v !! "beschleunigung" = Some (beschleunigung (basis v)) ∧
  to_dict v !! own_key v = Some (own_value v) ∧
  dom (to_dict v) =
    list_to_set ["typ"; "marke"; "modell"; "baujahr"; "geschwindigkeit";
                 "beschleunigung"; own_key v].
Proof.
  destruct v as [b k|b k|b e]; repeat split;
    try (vm_compute; reflexivity); cbn; set_solver.
Qed.

(** ** Constructor calls *)

Lemma bind_keywords_fits (cls : string) (params : list string) (kw : gmap string value) :
  dom kw = list_to_set params →
  bind_keywords cls params kw = Ok (λ p, default VNone (kw !! p)).
Proof.
  intros Hdom. unfold bind_keywords.
  destruct (decide _) as [_|Hne]; [|exfalso; apply Hne; rewrite Hdom; apply difference_diag_L].
  destruct (filter _ params) as [|p ps] eqn:Hf; [reflexivity|].
  assert (p ∈ filter (λ p, p ∉ dom kw) params) as Hp by (rewrite Hf; left).
  apply list_elem_of_filter in Hp as [Hp1 Hp2].
  exfalso. apply Hp1. rewrite Hdom. by apply elem_of_list_to_set.
Qed.

Lemma bind_keywords_mismatch (cls : string) (params : list string) (kw : gmap string value) :
  dom kw ≠ list_to_set params →
  ∃ e, bind_keywords cls params kw = Raise e.
Proof.
  intros Hdom. unfold bind_keywords.
  destruct (decide _) as [He|_]; [|eauto].
  destruct (filter _ params) as [|p ps] eqn:Hf; [|eauto].
  exfalso. apply Hdom. apply set_eq. intros x. rewrite elem_of_list_to_set.
  split; [intros Hx; apply dec_stable; intros Hn;
          apply (not_elem_of_empty (C:=gset string) x); rewrite <- He;
          apply elem_of_difference; by rewrite elem_of_list_to_set|].
  intros Hx.
  destruct (decide (x ∈ dom kw)) as [|Hn]; [done|].
  assert (x ∈ filter (λ p, p ∉ dom kw) params) as Hin
    by (apply list_elem_of_filter; done).
  rewrite Hf in Hin. by apply elem_of_nil in Hin.
Qed.

(** A record of a recognised kind whose other keys are not exactly the
    parameters of the constructor makes [from_dict] raise. *)
Lemma from_dict_mismatch (d : gmap string value) (name : string) (params : list string) :
  d !! "typ" = Some (VStr name) →
  params_of name = Some params →
  dom (delete "typ" d) ≠ list_to_set params →
  ∃ e, from_dict (VDict d) = Raise e.
Proof.
  intros Htyp Hpar Hdom. unfold from_dict. cbv zeta. rewrite Htyp.
  change (default VNone (Some ?x)) with x. cbn [str_eq].
  unfold params_of in Hpar.
  repeat case_bool_decide; simplify_eq;
    match goal with
    | |- ∃ e, Some <$> ?new _ = Raise e => unfold new, mbind, result_bind
    end;
    match goal with
    | |- context [bind_keywords ?cls ?ps ?kw] =>
        destruct (bind_keywords_mismatch cls ps kw Hdom) as [e ->]
    end; eauto.
Qed.

(** A record of a recognised kind whose other keys are exactly the
    parameters of the constructor is decoded to a vehicle of that kind. *)
Lemma from_dict_fits (d : gmap string value) (name : string) (params : list string) :
  d !! "typ" = Some (VStr name) →
  params_of name = Some params →
  dom (delete "typ" d) = list_to_set params →
  ∃ v, from_dict (VDict d) = Ok (Some v) ∧ class_name v = name.
Proof.
  intros Htyp Hpar Hdom. unfold from_dict. cbv zeta. rewrite Htyp.
  change (default VNone (Some ?x)) with x. cbn [str_eq].
  unfold params_of in Hpar.
  repeat case_bool_decide; simplify_eq;
    match goal with
    | |- ∃ v, Some <$> ?new _ = _ ∧ _ => unfold new, mbind, result_bind
    end;
    match goal with
    | |- context [bind_keywords ?cls ?ps ?kw] =>
        rewrite (bind_keywords_fits cls ps kw Hdom)
    end; eauto.
Qed.

Lemma from_dict_no_typ (d : gmap string value) :
  d !! "typ" ≠ Some (VStr "Auto") →
  d !! "typ" ≠ Some (VStr "Elektroauto") →
  d !! "typ" ≠ Some (VStr "Motorrad") →
  from_dict (VDict d) = Ok None.
Proof.
  intros HA HE HM. unfold from_dict.
  destruct (d !! "typ") as [[| | | |s| |]|]; cbn; try reflexivity.
  repeat case_bool_decide; simplify_eq; done.
Qed.

(** ** Loading *)

(** C3, as stated, fails: the dictionary of the Toyota has no key "kind",
    and [from_dict] returns the car, not [None]; the discriminator that
    [from_dict] reads is under "typ". *)
Lemma from_dict_ignores_kind :
  to_dict toyota !! "kind" = None ∧
  from_dict (VDict (to_dict toyota)) = Ok (Some toyota).
Proof. split; vm_compute; reflexivity. Qed.

(** C3, amended: for a record in which the key "typ" is missing or holds
    anything but "Auto", "Elektroauto" or "Motorrad", [from_dict] returns
    [None] and raises nothing; [laden] skips such a record without a
    diagnostic, and the vehicles and diagnostics of the records before and
    after it, and the way [laden] ends, are what they are without it. *)
Theorem from_dict_unrecognised (d : gmap string value) :
  d !! "typ" ≠ Some (VStr "Auto") →
  d !! "typ" ≠ Some (VStr "Elektroauto") →
  d !! "typ" ≠ Some (VStr "Motorrad") →
  from_dict (VDict d) = Ok None ∧
  ∀ (before after : list value) (s : State),
    let r1 := laden (stored (before ++ VDict d :: after) s) in
    let r2 := laden (stored (before ++ after) s) in
    fahrzeuge r1.1 = fahrzeuge r2.1 ∧ stdout r1.1 = stdout r2.1 ∧
    r1.2 = r2.2.
Proof.
  intros HA HE HM. pose proof (from_dict_no_typ d HA HE HM) as Hnone.
  split; [done|]. intros before after s r1 r2. subst r1 r2.
  rewrite (laden_stored_loaded _ (before ++ VDict d :: after)) by reflexivity.
  rewrite (laden_stored_loaded _ (before ++ after)) by reflexivity.
  cbn [fst snd fahrzeuge stdout]. by rewrite loaded_skip.
Qed.

Lemma from_dict_unrecognised_witness :
  from_dict (VDict unicycle) = Ok None ∧
  ∀ (before after : list value) (s : State),
    let r1 := laden (stored (before ++ VDict unicycle :: after) s) in
    let r2 := laden (stored (before ++ after) s) in
    fahrzeuge r1.1 = fahrzeuge r2.1 ∧ stdout r1.1 = stdout r2.1 ∧
    r1.2 = r2.2.
Proof.
  apply (from_dict_unrecognised unicycle); vm_compute; discriminate.
Defined.

(** X23: when the file holds a list and the terminal can encode every
    diagnostic, [laden] raises nothing; the collection becomes the vehicles
    of the items that [from_dict] decodes, in the order of the file, and
    each item on which [from_dict] raises adds one diagnostic and nothing
    else.  [from_dict] does raise, and does not catch, when the keys of a
    record of a recognised kind are not exactly the parameters of the
    constructor. *)
Theorem laden_skips_failing_records (s : State) (items : list value) :
  datei s = File_json (VList items) →
  Forall (λ o, shown o = true) (diagnostics items) →
  laden s = ({| fahrzeuge := decoded items;
                datei := datei s;
                stdout := stdout s ++ diagnostics items |}, Ok tt) ∧
  ∀ (d : gmap string value) (name : string) (params : list string),
    d !! "typ" = Some (VStr name) →
    params_of name = Some params →
    dom (delete "typ" d) ≠ list_to_set params →
    ∃ e, from_dict (VDict d) = Raise e.
Proof.
  intros Hd Hshown. split; [by apply laden_json_list|]. apply from_dict_mismatch.
Qed.

Lemma laden_skips_failing_records_witness :
  laden (stored mixed_items empty_store) =
    ({| fahrzeuge := [toyota; Motorrad zoe_basis (VStr "Benzin")];
        datei := File_json (VList mixed_items);
        stdout := [Eintrag_uebersprungen
                     (TypeError_missing_arguments "Auto" Auto_params)] |}, Ok tt).
Proof.
  refine (proj1 (laden_skips_failing_records
                   (stored mixed_items empty_store) mixed_items eq_refl _)).
  vm_compute. repeat constructor.
Defined.

(** C5 fails on the code: the file holds a record of kind "Auto" with a key
    that is a lone surrogate, and then the record of the Toyota.  [from_dict]
    raises on the first record and [laden] catches that, but the diagnostic
    names the key, [print] raises [UnicodeEncodeError] inside the handler,
    and nothing catches it: [laden] raises, and the Toyota, which decodes,
    is never loaded. *)
Theorem laden_stops_at_surrogate :
  from_dict (VDict (to_dict toyota)) = Ok (Some toyota) ∧
  (∃ e, from_dict (VDict (<[surrogate := VInt 1]> {["typ" := VStr "Auto"]})) = Raise e) ∧
  laden (stored surrogate_items empty_store) =
    ({| fahrzeuge := []; datei := File_json (VList surrogate_items); stdout := [] |},
     Raise UnicodeEncodeError).
Proof.
  split; [vm_compute; reflexivity|]. split; [eexists; vm_compute; reflexivity|].
  vm_compute. reflexivity.
Qed.

(** C6, as stated, fails: in a store that holds the Toyota while there is no
    file, [laden] leaves the Toyota in the collection; and on a file whose
    bytes are no text, which [json.load] rejects with [UnicodeDecodeError],
    [laden] raises. *)
Lemma laden_keeps_collection :
  datei unsaved_toyota = File_absent ∧
  laden unsaved_toyota = (unsaved_toyota, Ok tt) ∧
  fahrzeuge unsaved_toyota = [toyota] ∧
  laden {| fahrzeuge := []; datei := File_unreadable (OtherException "UnicodeDecodeError");
           stdout := [] |} =
    ({| fahrzeuge := []; datei := File_unreadable (OtherException "UnicodeDecodeError");
        stdout := [] |}, Raise (OtherException "UnicodeDecodeError")).
Proof. repeat split. Qed.

(** C6, amended: when there is no file, or [json.load] rejects what it
    holds with [JSONDecodeError], [laden] raises nothing and changes
    nothing: the collection stays what it was.  In the constructor of
    [Fahrzeugverwaltung], which sets the collection to the empty list before
    it calls [laden], the collection is empty afterwards.  Any other
    exception of opening, reading or parsing the file is raised by [laden]
    and by the constructor. *)
Theorem laden_nothing_stored (s : State) :
  (datei s = File_absent ∨ datei s = File_not_json →
   laden s = (s, Ok tt) ∧
   Fahrzeugverwaltung__init__ s =
     ({| fahrzeuge := []; datei := datei s; stdout := stdout s |}, Ok tt)) ∧
  (∀ e, datei s = File_unreadable e →
        e ≠ FileNotFoundError → e ≠ JSONDecodeError →
        laden s = (s, Raise e) ∧
        Fahrzeugverwaltung__init__ s =
          ({| fahrzeuge := []; datei := datei s; stdout := stdout s |}, Raise e)).
Proof.
  split.
  - intros Hd. split; [by apply laden_nothing_to_load|].
    unfold Fahrzeugverwaltung__init__, mbind, M_bind, set_fahrzeuge.
    by rewrite laden_nothing_to_load.
  - intros e Hd H1 H2.
    assert (∀ s0, datei s0 = File_unreadable e → laden s0 = (s0, Raise e)) as Hl.
    { intros s0 Hd0. unfold laden, try_except, mbind, M_bind, json_load.
      rewrite Hd0. by destruct e. }
    split; [by apply Hl|].
    unfold Fahrzeugverwaltung__init__, mbind, M_bind, set_fahrzeuge.
    by rewrite Hl.
Qed.

Lemma laden_nothing_stored_witness :
  laden empty_store = (empty_store, Ok tt) ∧
  Fahrzeugverwaltung__init__ empty_store = (empty_store, Ok tt).
Proof.
  exact (proj1 (laden_nothing_stored empty_store) (or_introl eq_refl)).
Defined.

(** ** Adding *)

(** C7: [fahrzeug_hinzufuegen] puts the vehicle at the end of the
    collection and saves the whole collection; it raises nothing.  When the
    write succeeds the file holds the dictionaries of the new collection;
    when it fails with [e], the failure is printed and the collection still
    ends with the new vehicle. *)
Theorem fahrzeug_hinzufuegen_appends (s : State) (v : Fahrzeug) (w : WriteOutcome) :
  let r := fahrzeug_hinzufuegen v w s in
  r.2 = Ok tt ∧
  fahrzeuge r.1 = fahrzeuge s ++ [v] ∧
  match w with
  | Write_ok =>
      datei r.1 =
        File_json (VList ((λ f, VDict (to_dict f)) <$> (fahrzeuge s ++ [v]))) ∧
      stdout r.1 = stdout s
  | Write_fails e remains =>
      datei r.1 = remains ∧
      stdout r.1 = stdout s ++ [Fehler_beim_Speichern e]
  end.
Proof. destruct w; repeat split. Qed.

(** ** The argument of from_dict *)

Lemma Store_from_dict_store (data : Store.ref) (h : gmap Store.ref (gmap string value)) :
  (Store.from_dict data h).1 =
    alter (delete "typ") (fresh (dom h)) (<[fresh (dom h) := h !!! data]> h).
Proof.
  unfold Store.from_dict, mbind, M_bind, Store.get, Store.dict, Store.pop.
  repeat case_match; simplify_eq;
    unfold fmap, M_fmap, Store.call, mret, M_ret in *;
    repeat case_match; simplify_eq; reflexivity.
Qed.

Lemma Store_from_dict_result (data : Store.ref) (h : gmap Store.ref (gmap string value))
    (d : gmap string value) :
  h !! data = Some d →
  (Store.from_dict data h).2 = from_dict (VDict d).
Proof.
  intros Hd. apply lookup_total_correct in Hd as Hd'.
  assert (alter (delete "typ") (fresh (dom h)) (<[fresh (dom h) := d]> h)
            !!! fresh (dom h) = delete "typ" d) as Hnew
    by (by rewrite lookup_total_alter_eq, lookup_insert_eq).
  unfold Store.from_dict, from_dict, mbind, M_bind, Store.get, Store.dict, Store.pop.
  cbv zeta. rewrite Hd'.
  repeat destruct (str_eq _ _); try reflexivity;
    unfold fmap at 1, M_fmap, Store.call; cbn [snd]; by rewrite Hnew.
Qed.

(** [pop] does change the dictionary it is called on. *)
Lemma Store_pop_mutates (data : Store.ref) (h : gmap Store.ref (gmap string value))
    (d : gmap string value) (key : string) :
  h !! data = Some d →
  (Store.pop data key h).1 !! data = Some (delete key d).
Proof. intros Hd. cbn. by rewrite lookup_alter_eq, Hd. Qed.

(** C4: [from_dict] leaves the dictionary it is given as it was: after the
    call the reference holds the same entries as before, whether the call
    returns a vehicle, returns [None] or raises; the result is that of
    decoding these entries. *)
Theorem Store_from_dict_frame (data : Store.ref)
    (h : gmap Store.ref (gmap string value)) (d : gmap string value) :
  h !! data = Some d →
  (Store.from_dict data h).1 !! data = Some d ∧
  (Store.from_dict data h).2 = from_dict (VDict d).
Proof.
  intros Hd. split; [|by apply Store_from_dict_result].
  rewrite Store_from_dict_store.
  assert (fresh (dom h) ≠ data) as Hne.
  { intros <-. apply (is_fresh (dom h)). by apply elem_of_dom_2 in Hd. }
  by rewrite lookup_alter_ne, lookup_insert_ne.
Qed.

Lemma Store_from_dict_frame_witness :
  (Store.from_dict 0 toyota_store).1 !! 0 = Some (to_dict toyota) ∧
  (Store.from_dict 0 toyota_store).2 = Ok (Some toyota).
Proof.
  exact (Store_from_dict_frame 0 toyota_store (to_dict toyota) eq_refl).
Defined.

(** ** Texts *)

Lemma append_assoc (s1 s2 s3 : string) : (s1 +:+ s2) +:+ s3 = s1 +:+ s2 +:+ s3.
Proof.
  induction s1 as [|a s1 IH]; [reflexivity|].
  change (String a ((s1 +:+ s2) +:+ s3) = String a (s1 +:+ s2 +:+ s3)).
  by rewrite IH.
Qed.

Lemma beschleunigen_base (repr : value → string) (v : Fahrzeug) :
  beschleunigen repr v = Fahrzeug_beschleunigen repr v.
Proof. by destruct v. Qed.

(** C8, as stated, fails: the text of the Toyota names the fuel after
    "Kraftstoff: ", and "Fuel: Petrol" does not occur in it. *)
Lemma toyota_text_has_no_Fuel :
  __str__ no_repr toyota = "Toyota Yaris (2020) | 170 km/h | Kraftstoff: Petrol" ∧
  contains "Toyota Yaris (2020) | 170 km/h | Fuel: Petrol" (__str__ no_repr toyota)
    = false.
Proof. split; vm_compute; reflexivity. Qed.

(** C8, amended: [__str__] returns "marke modell (baujahr) | geschwindigkeit
    km/h" followed by " | Kraftstoff: X" for Auto and Motorrad and by
    " | Energiequelle: X" for Elektroauto; the text of the Toyota contains
    "Toyota Yaris (2020) | 170 km/h | Kraftstoff: Petrol". *)
Theorem Fahrzeug_text (repr : value → string) (v : Fahrzeug) :
  __str__ repr v =
    str repr (marke (basis v)) +:+ " " +:+ str repr (modell (basis v))
    +:+ " (" +:+ str repr (baujahr (basis v)) +:+ ") | "
    +:+ str repr (geschwindigkeit (basis v)) +:+ " km/h"
    +:+ own_label v +:+ str repr (own_value v) ∧
  contains "Toyota Yaris (2020) | 170 km/h | Kraftstoff: Petrol" (__str__ repr toyota)
    = true.
Proof.
  split; [|vm_compute; reflexivity].
  destruct v as [b x|b x|b x];
    unfold __str__, Auto__str__, Motorrad__str__, Elektroauto__str__,
      Fahrzeug__str__;
    cbn [basis own_label own_value]; by rewrite !append_assoc.
Qed.

(** C9: [beschleunigen] of each of the three classes returns the text of the
    base class, which is made from marke, modell and beschleunigung; two
    vehicles with the same shared attributes have the same text, whatever
    their classes. *)
Theorem beschleunigen_shared_wording (repr : value → string) (v1 v2 : Fahrzeug) :
  basis v1 = basis v2 →
  beschleunigen repr v1 = beschleunigen repr v2 ∧
  beschleunigen repr v1 =
    " " +:+ str repr (marke (basis v1)) +:+ " " +:+ str repr (modell (basis v1))
    +:+ " beschleunigt in " +:+ str repr (beschleunigung (basis v1))
    +:+ " Sekunden auf 100 km/h!".
Proof.
  intros Hb. rewrite !beschleunigen_base. unfold Fahrzeug_beschleunigen.
  by rewrite Hb.
Qed.

Lemma beschleunigen_shared_wording_witness :
  beschleunigen no_repr (Auto zoe_basis (VStr "Benzin")) =
    beschleunigen no_repr (Elektroauto zoe_basis (VStr "Akku")) ∧
  beschleunigen no_repr (Auto zoe_basis (VStr "Benzin")) =
    " Renault Zoe beschleunigt in 11 Sekunden auf 100 km/h!".
Proof.
  exact (beschleunigen_shared_wording no_repr (Auto zoe_basis (VStr "Benzin"))
           (Elektroauto zoe_basis (VStr "Akku")) eq_refl).
Defined.

(** C10: an Auto and a Motorrad made from the same six values have the same
    [__str__] text and the same [beschleunigen] text, and their dictionaries
    agree on every key but "typ", which holds "Auto" for the one and
    "Motorrad" for the other. *)
Theorem Auto_Motorrad_differ_in_typ (repr : value → string) (b : Basis) (k : value) :
  __str__ repr (Auto b k) = __str__ repr (Motorrad b k) ∧
  beschleunigen repr (Auto b k) = beschleunigen repr (Motorrad b k) ∧
  to_dict (Auto b k) !! "typ" = Some (VStr "Auto") ∧
  to_dict (Motorrad b k) !! "typ" = Some (VStr "Motorrad") ∧
  to_dict (Motorrad b k) = <["typ" := VStr "Motorrad"]> (to_dict (Auto b k)) ∧
  ∀ key, key ≠ "typ" → to_dict (Auto b k) !! key = to_dict (Motorrad b k) !! key.
Proof.
  assert (to_dict (Motorrad b k) = <["typ" := VStr "Motorrad"]> (to_dict (Auto b k)))
    as Hd by (destruct b; vm_compute; reflexivity).
  repeat split; try reflexivity; try done.
  intros key Hkey. by rewrite Hd, lookup_insert_ne.
Qed.

(** * Further properties *)

(** ** Showing the collection *)

Lemma for_each_print {A} (g : A → Output) (l : list A) (s : State) :
  for_each l (λ x, print (g x)) s =
    ({| fahrzeuge := fahrzeuge s; datei := datei s;
        stdout := stdout s ++ shown_prefix (g <$> l) |},
     if forallb shown (g <$> l) then Ok tt else Raise UnicodeEncodeError).
Proof.
  revert s. induction l as [|x l IH]; intros [fz d out].
  - cbn. by rewrite app_nil_r.
  - rewrite for_each_cons. cbn [fmap list_fmap shown_prefix forallb]. unfold print at 1.
    destruct (shown (g x)); cbn [andb fahrzeuge datei stdout].
    + rewrite IH. cbn [fahrzeuge datei stdout]. by rewrite <- app_assoc.
    + by rewrite app_nil_r.
Qed.

Lemma shown_prefix_all (os : list Output) :
  forallb shown os = true → shown_prefix os = os.
Proof.
  induction os as [|o os IH]; [done|]. cbn. destruct (shown o); [|done].
  intros Hos. by rewrite IH.
Qed.

Lemma alle_fahrzeuge_anzeigen_run (repr : value → string) (s : State) :
  alle_fahrzeuge_anzeigen repr s =
    ({| fahrzeuge := fahrzeuge s;
        datei := datei s;
        stdout := stdout s ++ shown_prefix (listing repr (fahrzeuge s)) |},
     if forallb shown (listing repr (fahrzeuge s))
     then Ok tt else Raise UnicodeEncodeError).
Proof.
  destruct s as [[|f fz] d out]; [reflexivity|].
  unfold alle_fahrzeuge_anzeigen, mbind, M_bind, get_fahrzeuge.
  cbn [fahrzeuge listing shown_prefix forallb]. unfold print at 1.
  change (shown (Line (newline +:+ " Fahrzeugliste:"))) with true.
  cbn [andb fahrzeuge datei stdout].
  rewrite (for_each_print (list_line repr)). cbn [fahrzeuge datei stdout].
  by rewrite <- app_assoc.
Qed.

Lemma beschleunigungsinfo_run (repr : value → string) (s : State) :
  beschleunigungsinfo repr s =
    ({| fahrzeuge := fahrzeuge s;
        datei := datei s;
        stdout := stdout s ++ shown_prefix (info_listing repr (fahrzeuge s)) |},
     if forallb shown (info_listing repr (fahrzeuge s))
     then Ok tt else Raise UnicodeEncodeError).
Proof.
  destruct s as [[|f fz] d out]; [reflexivity|].
  unfold beschleunigungsinfo, mbind, M_bind, get_fahrzeuge.
  cbn [fahrzeuge info_listing shown_prefix forallb]. unfold print at 1.
  change (shown (Line (newline +:+ " Beschleunigung der Fahrzeuge:"))) with true.
  cbn [andb fahrzeuge datei stdout].
  rewrite (for_each_print (info_line repr)). cbn [fahrzeuge datei stdout].
  by rewrite <- app_assoc.
Qed.

(** X1: [alle_fahrzeuge_anzeigen] changes neither the collection nor the
    file.  It sets out to print " Keine Fahrzeuge vorhanden." for an empty
    collection, and otherwise the heading and then one line for each
    vehicle, in the order of the collection.  It raises nothing when the
    terminal can encode all of these lines; otherwise it prints the lines
    before the first that cannot be encoded and raises
    [UnicodeEncodeError]. *)
Theorem alle_fahrzeuge_anzeigen_prints (repr : value → string) (s : State) :
  alle_fahrzeuge_anzeigen repr s =
    ({| fahrzeuge := fahrzeuge s;
        datei := datei s;
        stdout := stdout s ++ shown_prefix (listing repr (fahrzeuge s)) |},
     if forallb shown (listing repr (fahrzeuge s))
     then Ok tt else Raise UnicodeEncodeError) ∧
  (forallb shown (listing repr (fahrzeuge s)) = true →
   shown_prefix (listing repr (fahrzeuge s)) = listing repr (fahrzeuge s)).
Proof. split; [apply alle_fahrzeuge_anzeigen_run|apply shown_prefix_all]. Qed.

(** X2: [beschleunigungsinfo] changes neither the collection nor the file.
    It sets out to print " Keine Fahrzeuge vorhanden." for an empty
    collection, and otherwise the heading and then the [beschleunigen] text
    of each vehicle, in the order of the collection.  It raises nothing when
    the terminal can encode all of these lines; otherwise it prints the
    lines before the first that cannot be encoded and raises
    [UnicodeEncodeError]. *)
Theorem beschleunigungsinfo_prints (repr : value → string) (s : State) :
  beschleunigungsinfo repr s =
    ({| fahrzeuge := fahrzeuge s;
        datei := datei s;
        stdout := stdout s ++ shown_prefix (info_listing repr (fahrzeuge s)) |},
     if forallb shown (info_listing repr (fahrzeuge s))
     then Ok tt else Raise UnicodeEncodeError) ∧
  (forallb shown (info_listing repr (fahrzeuge s)) = true →
   shown_prefix (info_listing repr (fahrzeuge s)) = info_listing repr (fahrzeuge s)).
Proof. split; [apply beschleunigungsinfo_run|apply shown_prefix_all]. Qed.

Lemma fahrzeug_hinzufuegen_fahrzeuge (s : State) (v : Fahrzeug) (w : WriteOutcome) :
  fahrzeuge (fahrzeug_hinzufuegen v w s).1 = fahrzeuge s ++ [v].
Proof. by destruct w. Qed.

(** X3: after a vehicle was added, whether the save went through or not,
    [alle_fahrzeuge_anzeigen] never prints the message of the empty
    collection: when the terminal can encode the lines of the vehicles, it
    prints the heading, the lines of the vehicles that were there before,
    and the line of the new vehicle last, and raises nothing. *)
Theorem anzeigen_after_hinzufuegen (repr : value → string) (s : State)
    (v : Fahrzeug) (w : WriteOutcome) :
  forallb shown (list_line repr <$> (fahrzeuge s ++ [v])) = true →
  let s1 := (fahrzeug_hinzufuegen v w s).1 in
  let r := alle_fahrzeuge_anzeigen repr s1 in
  r.2 = Ok tt ∧
  stdout r.1 =
    stdout s1 ++ Line (newline +:+ " Fahrzeugliste:")
                 :: (list_line repr <$> fahrzeuge s) ++ [list_line repr v] ∧
  fahrzeuge r.1 = fahrzeuge s ++ [v].
Proof.
  intros Hshown s1 r. subst s1 r. rewrite alle_fahrzeuge_anzeigen_run.
  rewrite fahrzeug_hinzufuegen_fahrzeuge. cbn [fst snd stdout fahrzeuge].
  assert (listing repr (fahrzeuge s ++ [v]) =
          Line (newline +:+ " Fahrzeugliste:")
          :: (list_line repr <$> fahrzeuge s) ++ [list_line repr v]) as ->.
  { change [list_line repr v] with (list_line repr <$> [v]).
    rewrite <- fmap_app. unfold listing.
    destruct (fahrzeuge s ++ [v]) eqn:Hl; [by destruct (fahrzeuge s)|done]. }
  assert (forallb shown
            (Line (newline +:+ " Fahrzeugliste:")
             :: (list_line repr <$> fahrzeuge s) ++ [list_line repr v]) = true) as Hall.
  { change [list_line repr v] with (list_line repr <$> [v]).
    rewrite <- fmap_app. cbn [forallb]. by rewrite Hshown. }
  by rewrite Hall, shown_prefix_all.
Qed.

Lemma anzeigen_after_hinzufuegen_witness :
  (alle_fahrzeuge_anzeigen no_repr (fahrzeug_hinzufuegen toyota Write_ok empty_store).1).2
    = Ok tt ∧
  stdout (alle_fahrzeuge_anzeigen no_repr
            (fahrzeug_hinzufuegen toyota Write_ok empty_store).1).1 =
    [Line (newline +:+ " Fahrzeugliste:"); list_line no_repr toyota] ∧
  fahrzeuge (alle_fahrzeuge_anzeigen no_repr
               (fahrzeug_hinzufuegen toyota Write_ok empty_store).1).1 = [toyota].
Proof.
  apply (anzeigen_after_hinzufuegen no_repr empty_store toyota Write_ok).
  vm_compute. reflexivity.
Defined.

(** ** Restarting *)

Lemma Fahrzeugverwaltung__init___laden (s : State) :
  Fahrzeugverwaltung__init__ s =
    laden {| fahrzeuge := []; datei := datei s; stdout := stdout s |}.
Proof. reflexivity. Qed.

(** X4: a vehicle that was added and saved is there after a restart: when
    the write of [fahrzeug_hinzufuegen] went through, a new
    [Fahrzeugverwaltung] that finds the file as it was left holds the
    vehicles of the old one followed by the new vehicle, and reports
    nothing. *)
Theorem restart_after_hinzufuegen (s s' : State) (v : Fahrzeug) :
  datei s' = datei (fahrzeug_hinzufuegen v Write_ok s).1 →
  Fahrzeugverwaltung__init__ s' =
    ({| fahrzeuge := fahrzeuge s ++ [v]; datei := datei s'; stdout := stdout s' |},
     Ok tt).
Proof.
  intros Hd. rewrite Fahrzeugverwaltung__init___laden.
  rewrite (laden_json_list _ ((λ f, VDict (to_dict f)) <$> (fahrzeuge s ++ [v])))
    by (by rewrite ?diagnostics_to_dict; cbn [datei]; rewrite ?Hd).
  cbn [fahrzeuge datei stdout].
  by rewrite decoded_to_dict, diagnostics_to_dict, app_nil_r.
Qed.

Lemma restart_after_hinzufuegen_witness :
  Fahrzeugverwaltung__init__
    {| fahrzeuge := []; datei := datei (fahrzeug_hinzufuegen toyota Write_ok empty_store).1;
       stdout := [] |} =
    ({| fahrzeuge := [toyota];
        datei := datei (fahrzeug_hinzufuegen toyota Write_ok empty_store).1;
        stdout := [] |}, Ok tt).
Proof.
  exact (restart_after_hinzufuegen empty_store
           {| fahrzeuge := [];
              datei := datei (fahrzeug_hinzufuegen toyota Write_ok empty_store).1;
              stdout := [] |} toyota eq_refl).
Defined.

(** ** Files that do not hold a list *)

Lemma decoded_strings (l : list string) : decoded (VStr <$> l) = [].
Proof. induction l as [|x l IH]; [reflexivity|]. exact IH. Qed.

Lemma diagnostics_strings (l : list string) :
  diagnostics (VStr <$> l) =
    replicate (length l) (Eintrag_uebersprungen (AttributeError "get")).
Proof.
  induction l as [|x l IH]; [reflexivity|].
  cbn [fmap list_fmap length replicate]. rewrite <- IH. reflexivity.
Qed.

(** X5: when the file holds one JSON object instead of a list of objects
    (a single record, say), [laden] goes through the keys of the object: it
    loads no vehicle, reports one skipped entry for each key, and raises
    nothing. *)
Theorem laden_json_object (s : State) (d : gmap string value) :
  datei s = File_json (VDict d) →
  laden s =
    ({| fahrzeuge := [];
        datei := datei s;
        stdout := stdout s ++
          replicate (size d) (Eintrag_uebersprungen (AttributeError "get")) |},
     Ok tt).
Proof.
  intros Hd. unfold laden, try_except.
  unfold mbind at 1, M_bind. unfold json_load. rewrite Hd.
  unfold mbind at 1, M_bind. unfold set_fahrzeuge.
  unfold mbind at 1, M_bind. unfold lift at 1. cbn [iter].
  rewrite for_each_items.
  - cbn [fahrzeuge datei stdout].
    rewrite decoded_strings, diagnostics_strings, Hd.
    by rewrite <- size_dom.
  - rewrite diagnostics_strings. by apply Forall_replicate.
Qed.

Lemma laden_json_object_witness :
  laden {| fahrzeuge := [toyota]; datei := File_json (VDict unicycle); stdout := [] |} =
    ({| fahrzeuge := [];
        datei := File_json (VDict unicycle);
        stdout := [Eintrag_uebersprungen (AttributeError "get");
                   Eintrag_uebersprungen (AttributeError "get")] |}, Ok tt).
Proof.
  exact (laden_json_object
           {| fahrzeuge := [toyota]; datei := File_json (VDict unicycle); stdout := [] |}
           unicycle eq_refl).
Defined.

(** X6: when the file holds a JSON number, [true], [false] or [null],
    [laden] raises the [TypeError] of the [for] statement, which it does not
    catch, and the collection has already been emptied. *)
Theorem laden_json_scalar (s : State) (v : value) :
  datei s = File_json v →
  scalar v = true →
  laden s =
    ({| fahrzeuge := []; datei := datei s; stdout := stdout s |},
     Raise (TypeError_not_iterable v)).
Proof.
  intros Hd Hv. unfold laden, try_except.
  unfold mbind at 1, M_bind. unfold json_load. rewrite Hd.
  unfold mbind at 1, M_bind. unfold set_fahrzeuge.
  unfold mbind at 1, M_bind. unfold lift at 1.
  destruct v; try discriminate; cbn; by rewrite Hd.
Qed.

Lemma laden_json_scalar_witness :
  laden {| fahrzeuge := [toyota]; datei := File_json (VInt 5); stdout := [] |} =
    ({| fahrzeuge := []; datei := File_json (VInt 5); stdout := [] |},
     Raise (TypeError_not_iterable (VInt 5))).
Proof.
  exact (laden_json_scalar
           {| fahrzeuge := [toyota]; datei := File_json (VInt 5); stdout := [] |}
           (VInt 5) eq_refl eq_refl).
Defined.

(** X7: an error of reading the file other than [FileNotFoundError] and
    [JSONDecodeError] (a missing permission, say) is not caught: [laden]
    raises it and changes nothing, and so does the constructor of
    [Fahrzeugverwaltung] after it emptied the collection. *)
Theorem laden_read_error (s : State) (e : exn) :
  datei s = File_unreadable e →
  e ≠ FileNotFoundError →
  e ≠ JSONDecodeError →
  laden s = (s, Raise e) ∧
  Fahrzeugverwaltung__init__ s =
    ({| fahrzeuge := []; datei := datei s; stdout := stdout s |}, Raise e).
Proof.
  intros Hd H1 H2.
  assert (∀ s0, datei s0 = File_unreadable e → laden s0 = (s0, Raise e)) as Hl.
  { intros s0 Hd0. unfold laden, try_except, mbind, M_bind, json_load.
    rewrite Hd0. by destruct e. }
  split; [by apply Hl|].
  rewrite Fahrzeugverwaltung__init___laden. by rewrite Hl.
Qed.

Lemma laden_read_error_witness :
  laden {| fahrzeuge := [toyota];
           datei := File_unreadable (OtherException "Permission denied");
           stdout := [] |} =
    ({| fahrzeuge := [toyota];
        datei := File_unreadable (OtherException "Permission denied");
        stdout := [] |}, Raise (OtherException "Permission denied")) ∧
  Fahrzeugverwaltung__init__
    {| fahrzeuge := [toyota];
       datei := File_unreadable (OtherException "Permission denied");
       stdout := [] |} =
    ({| fahrzeuge := [];
        datei := File_unreadable (OtherException "Permission denied");
        stdout := [] |}, Raise (OtherException "Permission denied")).
Proof.
  apply (laden_read_error
           {| fahrzeuge := [toyota];
              datei := File_unreadable (OtherException "Permission denied");
              stdout := [] |} (OtherException "Permission denied"));
    [reflexivity | discriminate | discriminate].
Defined.

(** ** Records that decode *)

Lemma bind_keywords_Ok_inv (cls : string) (params : list string)
    (kw : gmap string value) (arg : string → value) :
  bind_keywords cls params kw = Ok arg →
  dom kw = list_to_set params ∧ arg = λ p, default VNone (kw !! p).
Proof.
  intros Hb. destruct (decide (dom kw = list_to_set params)) as [Hdom|Hdom].
  - rewrite (bind_keywords_fits _ _ _ Hdom) in Hb. by simplify_eq.
  - destruct (bind_keywords_mismatch cls params kw Hdom) as [e He]. congruence.
Qed.

Lemma dom_to_dict (v : Fahrzeug) :
  dom (to_dict v) = {["typ"]} ∪ list_to_set (Fahrzeug_params ++ [own_key v]).
Proof. destruct v as [b k|b k|b k]; vm_compute; reflexivity. Qed.

Lemma lookup_of_dom (d : gmap string value) (ks : gset string) (p : string) :
  dom (delete "typ" d) = ks → p ∈ ks →
  d !! p = Some (default VNone (d !! p)) ∧ p ≠ "typ".
Proof.
  intros Hdom Hp. rewrite <- Hdom in Hp.
  apply elem_of_dom in Hp as [x Hx].
  apply lookup_delete_Some in Hx as [Hne Hx]. by rewrite Hx.
Qed.

(** What a successful [from_dict] tells about the record. *)
Lemma from_dict_Some_inv (d : gmap string value) (v : Fahrzeug) :
  from_dict (VDict d) = Ok (Some v) →
  d !! "typ" = Some (VStr (class_name v)) ∧
  dom (delete "typ" d) = list_to_set (Fahrzeug_params ++ [own_key v]) ∧
  basis v = Fahrzeug_init (λ p, default VNone (d !! p)) ∧
  own_value v = default VNone (d !! own_key v).
Proof.
  unfold from_dict. cbv zeta.
  destruct (d !! "typ") as [[| | | |name| |]|] eqn:Htyp;
    try (intros [=]; fail).
  change (default VNone (Some ?x)) with x. cbn [str_eq].
  repeat case_bool_decide; try discriminate; simplify_eq;
    match goal with
    | |- Some <$> ?new _ = _ → _ => unfold new, mbind, result_bind
    end;
    destruct (bind_keywords _ _ _) as [arg|e] eqn:Hb; try discriminate;
    apply bind_keywords_Ok_inv in Hb as [Hdom ->];
    intros [= <-]; cbn [class_name own_key own_value basis];
    (split; [done|]); (split; [done|]);
    unfold Fahrzeug_init; by rewrite !lookup_delete_ne.
Qed.

Lemma to_dict_lookup (v : Fahrzeug) :
  to_dict v !! "typ" = Some (VStr (class_name v)) ∧
  to_dict v !! "marke" = Some (marke (basis v)) ∧
  to_dict v !! "modell" = Some (modell (basis v)) ∧
  to_dict v !! "baujahr" = Some (baujahr (basis v)) ∧
  to_dict v !! "geschwindigkeit" = Some (geschwindigkeit (basis v)) ∧
  to_dict v !! "beschleunigung" = Some (beschleunigung (basis v)) ∧
  to_dict v !! own_key v = Some (own_value v).
Proof. destruct v as [b k|b k|b k]; repeat split; vm_compute; reflexivity. Qed.

(** X8: encoding what was decoded gives back the record: when [from_dict]
    returns a vehicle for a dictionary, [to_dict] of that vehicle is the
    dictionary, with no entry lost, added or changed. *)
Theorem to_dict_from_dict (d : gmap string value) (v : Fahrzeug) :
  from_dict (VDict d) = Ok (Some v) → to_dict v = d.
Proof.
  intros Hv. apply from_dict_Some_inv in Hv as (Htyp & Hdom & Hb & Ho).
  assert (dom d = dom (to_dict v)) as Hdd.
  { apply set_eq. intros x.
    rewrite dom_to_dict, <- Hdom, dom_delete_L.
    rewrite elem_of_union, elem_of_difference, !elem_of_singleton. split.
    - intros Hx. destruct (decide (x = "typ")); [by left|by right].
    - intros [-> | [Hx _]]; [by apply elem_of_dom_2 in Htyp|done]. }
  destruct (to_dict_lookup v) as (L0 & L1 & L2 & L3 & L4 & L5 & L6).
  rewrite Hb in L1, L2, L3, L4, L5. rewrite Ho in L6. cbn in L1, L2, L3, L4, L5.
  apply map_eq. intros i. destruct (d !! i) as [x|] eqn:Hi.
  - assert (i ∈ dom (to_dict v)) as Hin by (rewrite <- Hdd; by apply elem_of_dom_2 in Hi).
    rewrite dom_to_dict, elem_of_union, elem_of_singleton, elem_of_list_to_set in Hin.
    unfold Fahrzeug_params in Hin. cbn [app] in Hin. rewrite !elem_of_cons in Hin.
    destruct Hin as [->|[->|[->|[->|[->|[->|[->|Hin]]]]]]];
      [congruence|by rewrite Hi in *..|by apply elem_of_nil in Hin].
  - apply not_elem_of_dom. rewrite <- Hdd. by apply not_elem_of_dom.
Qed.

Lemma to_dict_from_dict_witness :
  to_dict (Motorrad zoe_basis (VStr "Benzin")) =
    <["typ" := VStr "Motorrad"]> (to_dict (Auto zoe_basis (VStr "Benzin"))).
Proof.
  apply (to_dict_from_dict
           (<["typ" := VStr "Motorrad"]> (to_dict (Auto zoe_basis (VStr "Benzin"))))
           (Motorrad zoe_basis (VStr "Benzin"))).
  vm_compute. reflexivity.
Defined.

(** X9: [from_dict] returns a vehicle for a dictionary exactly when "typ"
    holds one of the three class names and the other keys are exactly the
    parameters of the constructor of that class. *)
Theorem from_dict_accepts (d : gmap string value) :
  (∃ v, from_dict (VDict d) = Ok (Some v)) ↔
  (∃ name params,
     d !! "typ" = Some (VStr name) ∧ params_of name = Some params ∧
     dom (delete "typ" d) = list_to_set params).
Proof.
  split.
  - intros [v Hv]. apply from_dict_Some_inv in Hv as (Htyp & Hdom & _).
    exists (class_name v), (Fahrzeug_params ++ [own_key v]).
    split; [done|]. split; [by destruct v|done].
  - intros (name & params & Htyp & Hpar & Hdom).
    destruct (from_dict_fits d name params Htyp Hpar Hdom) as (v & Hv & _). eauto.
Qed.

(** X10: two vehicles with the same dictionary are the same vehicle: class
    and attributes can be read off the dictionary that [to_dict] makes. *)
Theorem to_dict_inj (v1 v2 : Fahrzeug) :
  to_dict v1 = to_dict v2 → v1 = v2.
Proof.
  intros Hd. pose proof (from_dict_to_dict_inv v1) as H1.
  rewrite Hd, from_dict_to_dict_inv in H1. by simplify_eq.
Qed.

Lemma to_dict_inj_witness :
  Auto zoe_basis (VStr "Benzin") = Auto zoe_basis (VStr "Benzin").
Proof.
  exact (to_dict_inj (Auto zoe_basis (VStr "Benzin")) (Auto zoe_basis (VStr "Benzin"))
           eq_refl).
Defined.

(** X11: the record of an Auto in which "typ" was changed to "Motorrad" is
    decoded to the Motorrad with the same attributes, and the other way
    round; changed to "Elektroauto" it is rejected, because "kraftstoff" is
    no parameter of that constructor and "energiequelle" is missing. *)
Theorem from_dict_retagged (b : Basis) (k : value) :
  from_dict (VDict (<["typ" := VStr "Motorrad"]> (to_dict (Auto b k)))) =
    Ok (Some (Motorrad b k)) ∧
  from_dict (VDict (<["typ" := VStr "Auto"]> (to_dict (Motorrad b k)))) =
    Ok (Some (Auto b k)) ∧
  from_dict (VDict (<["typ" := VStr "Elektroauto"]> (to_dict (Auto b k)))) =
    Raise (TypeError_unexpected_keyword "Elektroauto" {["kraftstoff"]}).
Proof. destruct b. repeat split; vm_compute; reflexivity. Qed.

(** ** Input functions *)

Lemma eingabe_string_while_result (strip : string → string) (prompt : string)
    (keys : list string) (wert : string) (scr : list Shown) :
  match eingabe_string_while strip prompt wert keys scr with
  | (t', Ok w) => strip w ≠ "" ∧ ∃ used, keys = used ++ keyboard t'
  | (t', Raise e) => e = EOFError ∧ keyboard t' = []
  end.
Proof.
  revert wert scr. induction keys as [|line keys IH]; intros wert scr; cbn.
  - case_bool_decide; [done|]. split; [done|]. by exists [].
  - case_bool_decide as Hw.
    + specialize (IH (strip line)
        (if bool_decide (strip line = "")
         then (scr ++ [Prompt prompt]) ++ [Printed (Line " Eingabe darf nicht leer sein.")]
         else scr ++ [Prompt prompt])).
      destruct (eingabe_string_while _ _ _ _ _) as [t' [w|e]]; [|done].
      destruct IH as [Hne [used ->]]. split; [done|]. by exists (line :: used).
    + split; [done|]. by exists [].
Qed.


Lemma eingabe_string_while_blanks (strip : string → string) (prompt : string)
    (blanks : list string) (line : string) (rest : list string) (wert : string)
    (scr : list Shown) :
  strip "" = "" →
  (∀ s, strip (strip s) = strip s) →
  strip wert = "" →
  Forall (λ x, strip x = "") blanks →
  strip line ≠ "" →
  eingabe_string_while strip prompt wert (blanks ++ line :: rest) scr =
    ({| screen := scr ++ (blanks ≫= λ _, [Prompt prompt; leer]) ++ [Prompt prompt];
        keyboard := rest |}, Ok (strip line)).
Proof.
  intros H0 Hidem Hw Hb Hl. revert wert scr Hw.
  induction Hb as [|x blanks Hx Hb IH]; intros wert scr Hw.
  - cbn. rewrite bool_decide_eq_true_2 by done.
    rewrite (bool_decide_eq_false_2 (strip line = "")) by done.
    destruct rest; cbn; rewrite Hidem; by rewrite bool_decide_eq_false_2.
  - cbn [app eingabe_string_while]. rewrite bool_decide_eq_true_2 by done.
    rewrite (bool_decide_eq_true_2 (strip x = "")) by done.
    rewrite IH by (by rewrite Hx). cbn. by rewrite <- !app_assoc.
Qed.

(** X13: [eingabe_string] returns the first line that is not blank, without
    the blanks around it, and leaves the lines after it; for each blank line
    before it, it shows the prompt and " Eingabe darf nicht leer sein.".
    ([strip] is the method of [str]: it leaves the empty string empty, and
    stripping twice is stripping once.) *)
Theorem eingabe_string_first_filled (strip : string → string) (prompt : string)
    (t : Terminal) (blanks : list string) (line : string) (rest : list string) :
  strip "" = "" →
  (∀ s, strip (strip s) = strip s) →
  keyboard t = blanks ++ line :: rest →
  Forall (λ x, strip x = "") blanks →
  strip line ≠ "" →
  eingabe_string strip prompt t =
    ({| screen := screen t ++ (blanks ≫= λ _, [Prompt prompt; leer]) ++ [Prompt prompt];
        keyboard := rest |}, Ok (strip line)).
Proof.
  intros H0 Hidem Hk Hb Hl. unfold eingabe_string. rewrite Hk.
  by apply eingabe_string_while_blanks.
Qed.

Lemma eingabe_string_first_filled_witness :
  eingabe_string (λ s, s) " Marke: "
    {| screen := []; keyboard := [""; ""; "Toyota"; "Yaris"] |} =
    ({| screen := [Prompt " Marke: "; leer; Prompt " Marke: "; leer; Prompt " Marke: "];
        keyboard := ["Yaris"] |}, Ok "Toyota").
Proof.
  apply (eingabe_string_first_filled (λ s, s) " Marke: "
           {| screen := []; keyboard := [""; ""; "Toyota"; "Yaris"] |}
           [""; ""] "Toyota" ["Yaris"]);
    [reflexivity | reflexivity | reflexivity | repeat constructor | discriminate].
Defined.

Lemma eingabe_int_while_rejected (strip : string → string) (parse_int : string → option Z)
    (prompt : string) (rejected : list string) (keys : list string) (scr : list Shown) :
  Forall (λ x, strip x = "" ∨ parse_int x = None) rejected →
  eingabe_int_while strip parse_int prompt (rejected ++ keys) scr =
    eingabe_int_while strip parse_int prompt keys
      (scr ++ (rejected ≫= λ x,
                 [Prompt prompt; if bool_decide (strip x = "") then leer else keine_Zahl])).
Proof.
  intros Hr. revert scr. induction Hr as [|x rejected Hx Hr IH]; intros scr.
  - cbn. by rewrite app_nil_r.
  - cbn [app eingabe_int_while]. case_bool_decide as Hb.
    + rewrite IH. cbn. rewrite (bool_decide_eq_true_2 _ Hb).
      by rewrite <- !app_assoc.
    + destruct Hx as [Hx|Hx]; [done|]. rewrite Hx, IH. cbn.
      rewrite (bool_decide_eq_false_2 _ Hb). by rewrite <- !app_assoc.
Qed.

(** X14: [eingabe_int] returns [int] of the first line that is not blank and
    that [int] accepts, and leaves the lines after it.  For each line before
    it, it shows the prompt and a complaint: " Eingabe darf nicht leer sein."
    for a blank line, " Bitte eine gültige Zahl eingeben." for any other. *)
Theorem eingabe_int_first_number (strip : string → string)
    (parse_int : string → option Z) (prompt : string) (t : Terminal)
    (rejected : list string) (line : string) (rest : list string) (z : Z) :
  keyboard t = rejected ++ line :: rest →
  Forall (λ x, strip x = "" ∨ parse_int x = None) rejected →
  strip line ≠ "" →
  parse_int line = Some z →
  eingabe_int strip parse_int prompt t =
    ({| screen := screen t
          ++ (rejected ≫= λ x,
                [Prompt prompt; if bool_decide (strip x = "") then leer else keine_Zahl])
          ++ [Prompt prompt];
        keyboard := rest |}, Ok z).
Proof.
  intros Hk Hr Hl Hz. unfold eingabe_int. rewrite Hk.
  rewrite eingabe_int_while_rejected by done. cbn.
  rewrite bool_decide_eq_false_2 by done. by rewrite Hz, <- app_assoc.
Qed.

Lemma eingabe_float_while_rejected (strip : string → string)
    (parse_float : string → option float)
    (prompt : string) (rejected : list string) (keys : list string) (scr : list Shown) :
  Forall (λ x, strip (replace_comma x) = "" ∨ parse_float (replace_comma x) = None)
    rejected →
  eingabe_float_while strip parse_float prompt (rejected ++ keys) scr =
    eingabe_float_while strip parse_float prompt keys
      (scr ++ (rejected ≫= λ x,
                 [Prompt prompt;
                  if bool_decide (strip (replace_comma x) = "")
                  then leer else keine_Kommazahl])).
Proof.
  intros Hr. revert scr. induction Hr as [|x rejected Hx Hr IH]; intros scr.
  - cbn. by rewrite app_nil_r.
  - cbn [app eingabe_float_while]. cbv zeta. case_bool_decide as Hb.
    + rewrite IH. cbn. rewrite (bool_decide_eq_true_2 _ Hb).
      by rewrite <- !app_assoc.
    + destruct Hx as [Hx|Hx]; [done|]. rewrite Hx, IH. cbn.
      rewrite (bool_decide_eq_false_2 _ Hb). by rewrite <- !app_assoc.
Qed.

(** X15: [eingabe_float] returns [float] of the first line that, with its
    commas replaced by points, is not blank and is accepted by [float], and
    leaves the lines after it.  For each line before it, it shows the prompt
    and a complaint: " Eingabe darf nicht leer sein." for a blank line,
    " Bitte eine gültige Kommazahl eingeben." for any other. *)
Theorem eingabe_float_first_number (strip : string → string)
    (parse_float : string → option float) (prompt : string) (t : Terminal)
    (rejected : list string) (line : string) (rest : list string) (f : float) :
  keyboard t = rejected ++ line :: rest →
  Forall (λ x, strip (replace_comma x) = "" ∨ parse_float (replace_comma x) = None)
    rejected →
  strip (replace_comma line) ≠ "" →
  parse_float (replace_comma line) = Some f →
  eingabe_float strip parse_float prompt t =
    ({| screen := screen t
          ++ (rejected ≫= λ x,
                [Prompt prompt;
                 if bool_decide (strip (replace_comma x) = "")
                 then leer else keine_Kommazahl])
          ++ [Prompt prompt];
        keyboard := rest |}, Ok f).
Proof.
  intros Hk Hr Hl Hf. unfold eingabe_float. rewrite Hk.
  rewrite eingabe_float_while_rejected by done. cbn.
  rewrite bool_decide_eq_false_2 by done. by rewrite Hf, <- app_assoc.
Qed.

Lemma replace_comma_idemp (s : string) : replace_comma (replace_comma s) = replace_comma s.
Proof.
  induction s as [|a s IH]; [reflexivity|]. cbn. rewrite IH. f_equal.
  destruct (Ascii.eqb a comma) eqn:Ha; [reflexivity|]. by rewrite Ha.
Qed.

Lemma eingabe_float_while_comma (strip : string → string)
    (parse_float : string → option float) (prompt : string)
    (keys : list string) (scr : list Shown) :
  let r1 := eingabe_float_while strip parse_float prompt keys scr in
  let r2 := eingabe_float_while strip parse_float prompt (replace_comma <$> keys) scr in
  r1.2 = r2.2 ∧ screen r1.1 = screen r2.1 ∧
  replace_comma <$> keyboard r1.1 = keyboard r2.1.
Proof.
  revert scr. induction keys as [|line keys IH]; intros scr; [done|].
  cbn [fmap list_fmap eingabe_float_while]. cbv zeta. rewrite replace_comma_idemp.
  case_bool_decide; [apply IH|].
  destruct (parse_float (replace_comma line)); [done|apply IH].
Qed.

(** X16: a comma counts as the decimal point: [eingabe_float] returns the
    same number, shows the same and takes as many lines when the commas of
    the typed lines are points instead. *)
Theorem eingabe_float_comma (strip : string → string)
    (parse_float : string → option float) (prompt : string) (t : Terminal) :
  let r1 := eingabe_float strip parse_float prompt t in
  let r2 := eingabe_float strip parse_float prompt
              {| screen := screen t; keyboard := replace_comma <$> keyboard t |} in
  r1.2 = r2.2 ∧ screen r1.1 = screen r2.1 ∧
  replace_comma <$> keyboard r1.1 = keyboard r2.1.
Proof. apply eingabe_float_while_comma. Qed.

(** X17: when the input ends before a line is accepted, each of the three
    input functions raises [EOFError], which it does not catch, and has
    taken all lines. *)
Theorem eingabe_end_of_input (strip : string → string)
    (parse_int : string → option Z) (parse_float : string → option float)
    (prompt : string) (t : Terminal) :
  (strip "" = "" → Forall (λ x, strip x = "") (keyboard t) →
   ∃ scr, eingabe_string strip prompt t =
            ({| screen := scr; keyboard := [] |}, Raise EOFError)) ∧
  (Forall (λ x, strip x = "" ∨ parse_int x = None) (keyboard t) →
   ∃ scr, eingabe_int strip parse_int prompt t =
            ({| screen := scr; keyboard := [] |}, Raise EOFError)) ∧
  (Forall (λ x, strip (replace_comma x) = "" ∨ parse_float (replace_comma x) = None)
     (keyboard t) →
   ∃ scr, eingabe_float strip parse_float prompt t =
            ({| screen := scr; keyboard := [] |}, Raise EOFError)).
Proof.
  repeat split.
  - intros H0 Hb. unfold eingabe_string.
    assert (∀ wert scr, strip wert = "" →
      ∃ scr', eingabe_string_while strip prompt wert (keyboard t) scr =
                ({| screen := scr'; keyboard := [] |}, Raise EOFError)) as Hgen.
    { induction Hb as [|x keys Hx Hb IH]; intros wert scr Hw; cbn;
        rewrite bool_decide_eq_true_2 by done; [eauto|].
      apply IH. by rewrite Hx. }
    by apply Hgen.
  - intros Hr. unfold eingabe_int.
    rewrite <- (app_nil_r (keyboard t)), eingabe_int_while_rejected by done.
    cbn. eauto.
  - intros Hr. unfold eingabe_float.
    rewrite <- (app_nil_r (keyboard t)), eingabe_float_while_rejected by done.
    cbn. eauto.
Qed.

Lemma eingabe_end_of_input_witness :
  ∃ scr, eingabe_int (λ s, s) (λ _, None) " Baujahr: "
           {| screen := []; keyboard := [""; "abc"] |} =
           ({| screen := scr; keyboard := [] |}, Raise EOFError).
Proof.
  destruct (eingabe_end_of_input (λ s, s) (λ _, None) (λ _, None) " Baujahr: "
              {| screen := []; keyboard := [""; "abc"] |}) as (_ & Hint & _).
  apply Hint. cbn [keyboard].
  repeat (apply List.Forall_cons; [by right|]). apply List.Forall_nil.
Defined.

(** ** The menu *)

Lemma extends_refl (strip : string → string) (σ : Session) : extends strip σ σ.
Proof. split; [exists []; by rewrite app_nil_r|by exists []]. Qed.

Lemma extends_trans (strip : string → string) (σ1 σ2 σ3 : Session) :
  extends strip σ1 σ2 → extends strip σ2 σ3 → extends strip σ1 σ3.
Proof.
  intros [(n1 & Hv1 & Hf1) (u1 & Hk1)] [(n2 & Hv2 & Hf2) (u2 & Hk2)]. split.
  - exists (n1 ++ n2). rewrite Hv2, Hv1, app_assoc. split; [done|].
    by apply Forall_app.
  - exists (u1 ++ u2). by rewrite Hk1, Hk2, app_assoc.
Qed.

Lemma safe_ret {A} (strip : string → string) (a : A) (Q : A → Prop) :
  Q a → safe strip (mret a) Q.
Proof. intros Ha σ. split; [apply extends_refl|done]. Qed.

Lemma safe_bind {A B} (strip : string → string) (m : M Session A)
    (f : A → M Session B) (Q : A → Prop) (Q' : B → Prop) :
  safe strip m Q → (∀ a, Q a → safe strip (f a) Q') → safe strip (m ≫= f) Q'.
Proof.
  intros Hm Hf σ. specialize (Hm σ). unfold mbind, M_bind.
  destruct (m σ) as [σ1 [a|e]]; cbn [fst snd] in *; [|done].
  destruct Hm as [He Ha]. specialize (Hf a Ha σ1).
  destruct (f a σ1) as [σ2 r]; cbn [fst snd] in *.
  destruct Hf as [He2 Hr]. split; [by eapply extends_trans|done].
Qed.

Lemma safe_weaken {A} (strip : string → string) (m : M Session A) (Q Q' : A → Prop) :
  safe strip m Q → (∀ a, Q a → Q' a) → safe strip m Q'.
Proof.
  intros Hm HQ σ. specialize (Hm σ). destruct (m σ) as [σ1 [a|e]]; cbn [fst snd] in *;
    [|done]. destruct Hm as [He Ha]. split; [done|by apply HQ].
Qed.

Lemma safe_say (strip : string → string) (text : string) :
  safe strip (say text) (λ _, True).
Proof.
  intros σ. split; [|done]. split; [exists []; by rewrite app_nil_r|by exists []].
Qed.

Lemma safe_next_write (strip : string → string) :
  safe strip next_write (λ _, True).
Proof.
  intros σ. unfold next_write. destruct (writes σ); (split; [|done]);
    (split; [exists []; by rewrite app_nil_r|by exists []]).
Qed.

Lemma safe_call_terminal {A} (strip : string → string) (m : M Terminal A) (Q : A → Prop) :
  (∀ t, match m t with
        | (t', Ok a) => Q a ∧ ∃ used, keyboard t = used ++ keyboard t'
        | (t', Raise e) => e = EOFError ∧ keyboard t' = []
        end) →
  safe strip (call_terminal m) Q.
Proof.
  intros Hm σ. specialize (Hm (terminal σ)). unfold call_terminal.
  destruct (m (terminal σ)) as [t' [a|e]]; cbn.
  - destruct Hm as [Ha Hu]. split; [|done]. split; [|done].
    exists []. by rewrite app_nil_r.
  - destruct Hm as [-> Hk]. split; [|by left]. split.
    + exists []. by rewrite app_nil_r.
    + exists (keyboard (terminal σ)). cbn [terminal]. by rewrite Hk, app_nil_r.
Qed.

Lemma safe_input (strip : string → string) (prompt : string) :
  safe strip (call_terminal (input prompt)) (λ _, True).
Proof.
  apply safe_call_terminal. intros t. unfold input.
  destruct (keyboard t) as [|line keys]; cbn; [done|].
  split; [done|]. by exists [line].
Qed.

Lemma safe_eingabe_string (strip : string → string) (prompt : string) :
  safe strip (call_terminal (eingabe_string strip prompt)) (λ w, strip w ≠ "").
Proof.
  apply safe_call_terminal. intros t.
  pose proof (eingabe_string_while_result strip prompt (keyboard t) "" (screen t)) as H.
  unfold eingabe_string. by destruct (eingabe_string_while _ _ _ _ _) as [t' [w|e]].
Qed.

Lemma eingabe_int_while_result (strip : string → string) (parse_int : string → option Z)
    (prompt : string) (keys : list string) (scr : list Shown) :
  match eingabe_int_while strip parse_int prompt keys scr with
  | (t', Ok _) => ∃ used, keys = used ++ keyboard t'
  | (t', Raise e) => e = EOFError ∧ keyboard t' = []
  end.
Proof.
  revert scr. induction keys as [|line keys IH]; intros scr; cbn; [done|].
  assert (∀ scr', match eingabe_int_while strip parse_int prompt keys scr' with
                  | (t', Ok _) => ∃ used, line :: keys = used ++ keyboard t'
                  | (t', Raise e) => e = EOFError ∧ keyboard t' = []
                  end) as IH'.
  { intros scr'. specialize (IH scr').
    destruct (eingabe_int_while _ _ _ _ _) as [t' [z|e]]; [|done].
    destruct IH as [used ->]. by exists (line :: used). }
  case_bool_decide; [apply IH'|].
  destruct (parse_int line); [by exists [line]|apply IH'].
Qed.

Lemma eingabe_float_while_result (strip : string → string)
    (parse_float : string → option float)
    (prompt : string) (keys : list string) (scr : list Shown) :
  match eingabe_float_while strip parse_float prompt keys scr with
  | (t', Ok _) => ∃ used, keys = used ++ keyboard t'
  | (t', Raise e) => e = EOFError ∧ keyboard t' = []
  end.
Proof.
  revert scr. induction keys as [|line keys IH]; intros scr; cbn; [done|].
  assert (∀ scr', match eingabe_float_while strip parse_float prompt keys scr' with
                  | (t', Ok _) => ∃ used, line :: keys = used ++ keyboard t'
                  | (t', Raise e) => e = EOFError ∧ keyboard t' = []
                  end) as IH'.
  { intros scr'. specialize (IH scr').
    destruct (eingabe_float_while _ _ _ _ _) as [t' [z|e]]; [|done].
    destruct IH as [used ->]. by exists (line :: used). }
  case_bool_decide; [apply IH'|].
  destruct (parse_float (replace_comma line)); [by exists [line]|apply IH'].
Qed.

Lemma safe_eingabe_int (strip : string → string) (parse_int : string → option Z)
    (prompt : string) :
  safe strip (call_terminal (eingabe_int strip parse_int prompt)) (λ _, True).
Proof.
  apply safe_call_terminal. intros t.
  pose proof (eingabe_int_while_result strip parse_int prompt (keyboard t) (screen t)) as H.
  unfold eingabe_int. by destruct (eingabe_int_while _ _ _ _ _) as [t' [w|e]].
Qed.

Lemma safe_eingabe_float (strip : string → string) (parse_float : string → option float)
    (prompt : string) :
  safe strip (call_terminal (eingabe_float strip parse_float prompt)) (λ _, True).
Proof.
  apply safe_call_terminal. intros t.
  pose proof (eingabe_float_while_result strip parse_float prompt (keyboard t) (screen t))
    as H.
  unfold eingabe_float. by destruct (eingabe_float_while _ _ _ _ _) as [t' [w|e]].
Qed.

Lemma anzeigen_keeps (repr : value → string) (s : State) :
  fahrzeuge (alle_fahrzeuge_anzeigen repr s).1 = fahrzeuge s ∧
  ((alle_fahrzeuge_anzeigen repr s).2 = Ok tt ∨
   (alle_fahrzeuge_anzeigen repr s).2 = Raise UnicodeEncodeError).
Proof.
  rewrite alle_fahrzeuge_anzeigen_run. cbn [fst snd fahrzeuge].
  split; [done|]. destruct (forallb _ _); eauto.
Qed.

Lemma beschleunigungsinfo_keeps (repr : value → string) (s : State) :
  fahrzeuge (beschleunigungsinfo repr s).1 = fahrzeuge s ∧
  ((beschleunigungsinfo repr s).2 = Ok tt ∨
   (beschleunigungsinfo repr s).2 = Raise UnicodeEncodeError).
Proof.
  rewrite beschleunigungsinfo_run. cbn [fst snd fahrzeuge].
  split; [done|]. destruct (forallb _ _); eauto.
Qed.

Lemma safe_call_store (strip : string → string) (m : M State unit) (new : list Fahrzeug) :
  (∀ s, fahrzeuge (m s).1 = fahrzeuge s ++ new ∧
        ((m s).2 = Ok tt ∨ (m s).2 = Raise UnicodeEncodeError)) →
  Forall (typed strip) new →
  safe strip (call_store m) (λ _, True).
Proof.
  intros Hm Hnew σ. unfold call_store.
  specialize (Hm {| fahrzeuge := verwaltung σ; datei := file σ; stdout := [] |}).
  destruct (m _) as [s r]. cbn in *. destruct Hm as [Hf Hr].
  split; [split; [by exists new|by exists []]|].
  destruct Hr as [-> | ->]; [done|by right].
Qed.

Lemma safe_hinzufuegen (strip : string → string) (v : Fahrzeug) :
  typed strip v → safe strip (hinzufuegen v) (λ _, True).
Proof.
  intros Hv. unfold hinzufuegen.
  apply (safe_bind strip _ _ (λ _, True)); [apply safe_next_write|].
  intros w _. apply (safe_call_store strip _ [v]).
  - intros s. split; [by destruct w|left; by destruct w].
  - by apply Forall_singleton.
Qed.

Lemma safe_Auto_eingeben (strip : string → string) (parse_int : string → option Z)
    (parse_float : string → option float) :
  safe strip (Auto_eingeben strip parse_int parse_float) (typed strip).
Proof.
  unfold Auto_eingeben.
  eapply safe_bind; [apply safe_eingabe_string|]. intros marke Hmarke.
  eapply safe_bind; [apply safe_eingabe_string|]. intros modell Hmodell.
  eapply safe_bind; [apply safe_eingabe_int|]. intros baujahr _.
  eapply safe_bind; [apply safe_eingabe_int|]. intros geschwindigkeit _.
  eapply safe_bind; [apply safe_eingabe_float|]. intros beschleunigung _.
  eapply safe_bind; [apply safe_eingabe_string|]. intros kraftstoff Hkraftstoff.
  apply safe_ret. unfold typed, filled. cbn. naive_solver.
Qed.

Lemma safe_Elektroauto_eingeben (strip : string → string) (parse_int : string → option Z)
    (parse_float : string → option float) :
  safe strip (Elektroauto_eingeben strip parse_int parse_float) (typed strip).
Proof.
  unfold Elektroauto_eingeben.
  eapply safe_bind; [apply safe_eingabe_string|]. intros marke Hmarke.
  eapply safe_bind; [apply safe_eingabe_string|]. intros modell Hmodell.
  eapply safe_bind; [apply safe_eingabe_int|]. intros baujahr _.
  eapply safe_bind; [apply safe_eingabe_int|]. intros geschwindigkeit _.
  eapply safe_bind; [apply safe_eingabe_float|]. intros beschleunigung _.
  eapply safe_bind; [apply safe_eingabe_string|]. intros energiequelle Henergiequelle.
  apply safe_ret. unfold typed, filled. cbn. naive_solver.
Qed.

Lemma safe_Motorrad_eingeben (strip : string → string) (parse_int : string → option Z)
    (parse_float : string → option float) :
  safe strip (Motorrad_eingeben strip parse_int parse_float) (typed strip).
Proof.
  unfold Motorrad_eingeben.
  eapply safe_bind; [apply safe_eingabe_string|]. intros marke Hmarke.
  eapply safe_bind; [apply safe_eingabe_string|]. intros modell Hmodell.
  eapply safe_bind; [apply safe_eingabe_int|]. intros baujahr _.
  eapply safe_bind; [apply safe_eingabe_int|]. intros geschwindigkeit _.
  eapply safe_bind; [apply safe_eingabe_float|]. intros beschleunigung _.
  eapply safe_bind; [apply safe_eingabe_string|]. intros kraftstoff Hkraftstoff.
  apply safe_ret. unfold typed, filled. cbn. naive_solver.
Qed.

Lemma safe_auswahl_ausfuehren (strip : string → string) (parse_int : string → option Z)
    (parse_float : string → option float) (repr : value → string) (auswahl : string) :
  safe strip (auswahl_ausfuehren strip parse_int parse_float repr auswahl) (λ _, True).
Proof.
  unfold auswahl_ausfuehren. repeat case_bool_decide.
  - eapply safe_bind; [apply safe_Auto_eingeben|]. intros v Hv.
    eapply safe_bind; [by apply safe_hinzufuegen|]. intros _ _. by apply safe_ret.
  - eapply safe_bind; [apply safe_Elektroauto_eingeben|]. intros v Hv.
    eapply safe_bind; [by apply safe_hinzufuegen|]. intros _ _. by apply safe_ret.
  - eapply safe_bind; [apply safe_Motorrad_eingeben|]. intros v Hv.
    eapply safe_bind; [by apply safe_hinzufuegen|]. intros _ _. by apply safe_ret.
  - eapply safe_bind; [|intros _ _; by apply safe_ret].
    apply (safe_call_store strip _ []); [|done].
    intros s. rewrite app_nil_r. apply anzeigen_keeps.
  - eapply safe_bind; [|intros _ _; by apply safe_ret].
    apply (safe_call_store strip _ []); [|done].
    intros s. rewrite app_nil_r. apply beschleunigungsinfo_keeps.
  - eapply safe_bind; [apply safe_say|]. intros _ _. by apply safe_ret.
  - eapply safe_bind; [apply safe_say|]. intros _ _. by apply safe_ret.
Qed.

Lemma safe_menue (strip : string → string) (parse_int : string → option Z)
    (parse_float : string → option float) (repr : value → string) :
  safe strip (menue strip parse_int parse_float repr) (λ _, True).
Proof.
  unfold menue.
  do 7 (eapply safe_bind; [apply safe_say|]; intros _ _).
  eapply safe_bind; [apply safe_input|]. intros auswahl _.
  apply safe_auswahl_ausfuehren.
Qed.

Lemma main_while_safe (strip : string → string) (parse_int : string → option Z)
    (parse_float : string → option float) (repr : value → string)
    (turns : nat) (σ σ' : Session) (r : result unit) :
  main_while strip parse_int parse_float repr turns σ = Some (σ', r) →
  extends strip σ σ' ∧
  ∀ e, r = Raise e →
       (e = EOFError ∧ keyboard (terminal σ') = []) ∨ e = UnicodeEncodeError.
Proof.
  revert σ. induction turns as [|turns IH]; intros σ; [done|]. cbn [main_while].
  pose proof (safe_menue strip parse_int parse_float repr σ) as [He Hr].
  destruct (menue _ _ _ _ σ) as [σ1 [[]|e]]; cbn [fst snd] in *.
  - intros [= <- <-]. done.
  - intros Hw. apply IH in Hw as [He' Hr']. split; [by eapply extends_trans|done].
  - intros [= <- <-]. split; [done|]. by intros ? [= <-].
Qed.

(** X18: whatever is typed, the menu loop never takes a vehicle out of the
    collection and never changes the order: when it has ended, the
    collection is what it was, followed by the vehicles that were added.
    Each of these has texts that are not blank for marke, modell and
    kraftstoff or energiequelle, integers for baujahr and geschwindigkeit,
    and a float for beschleunigung. *)
Theorem main_while_extends (strip : string → string) (parse_int : string → option Z)
    (parse_float : string → option float) (repr : value → string)
    (turns : nat) (σ σ' : Session) (r : result unit) :
  main_while strip parse_int parse_float repr turns σ = Some (σ', r) →
  ∃ new, verwaltung σ' = verwaltung σ ++ new ∧ Forall (typed strip) new.
Proof. intros Hw. by apply main_while_safe in Hw as [[Hv _] _]. Qed.


Lemma main_while_extends_witness :
  ∃ new, verwaltung toyota_run.1 = verwaltung (session toyota_keys) ++ new ∧
         Forall (typed sample_strip) new.
Proof.
  apply (main_while_extends sample_strip sample_int sample_float no_repr 3
           (session toyota_keys) toyota_run.1 toyota_run.2).
  vm_compute. reflexivity.
Defined.






Lemma eingabe_string_accepts (strip : string → string) (prompt line : string)
    (rest : list string) (scr : list Shown) :
  strip "" = "" →
  (∀ s, strip (strip s) = strip s) →
  strip line ≠ "" →
  eingabe_string strip prompt {| screen := scr; keyboard := line :: rest |} =
    ({| screen := scr ++ [Prompt prompt]; keyboard := rest |}, Ok (strip line)).
Proof.
  intros H0 Hidem Hl. unfold eingabe_string. cbn [keyboard screen].
  change (line :: rest) with ([] ++ line :: rest).
  by rewrite (eingabe_string_while_blanks strip prompt [] line rest "" scr).
Qed.

Lemma eingabe_int_accepts (strip : string → string) (parse_int : string → option Z)
    (prompt line : string) (rest : list string) (scr : list Shown) (z : Z) :
  strip line ≠ "" →
  parse_int line = Some z →
  eingabe_int strip parse_int prompt {| screen := scr; keyboard := line :: rest |} =
    ({| screen := scr ++ [Prompt prompt]; keyboard := rest |}, Ok z).
Proof.
  intros Hl Hz. unfold eingabe_int. cbn.
  rewrite bool_decide_eq_false_2 by done. by rewrite Hz.
Qed.

Lemma eingabe_float_accepts (strip : string → string)
    (parse_float : string → option float)
    (prompt line : string) (rest : list string) (scr : list Shown) (f : float) :
  strip (replace_comma line) ≠ "" →
  parse_float (replace_comma line) = Some f →
  eingabe_float strip parse_float prompt {| screen := scr; keyboard := line :: rest |} =
    ({| screen := scr ++ [Prompt prompt]; keyboard := rest |}, Ok f).
Proof.
  intros Hl Hf. unfold eingabe_float. cbn.
  rewrite bool_decide_eq_false_2 by done. by rewrite Hf.
Qed.

Lemma menue_Auto_run (strip : string → string) (parse_int : string → option Z)
    (parse_float : string → option float) (repr : value → string) (σ : Session)
    (ma mo bj ge be kr : string) (rest : list string) (y g : Z) (b : float) :
  strip "" = "" →
  (∀ s, strip (strip s) = strip s) →
  keyboard (terminal σ) = "1" :: ma :: mo :: bj :: ge :: be :: kr :: rest →
  strip ma ≠ "" → strip mo ≠ "" → strip kr ≠ "" →
  strip bj ≠ "" → parse_int bj = Some y →
  strip ge ≠ "" → parse_int ge = Some g →
  strip (replace_comma be) ≠ "" → parse_float (replace_comma be) = Some b →
  ∃ fl scr ws,
    menue strip parse_int parse_float repr σ =
      ({| verwaltung :=
            verwaltung σ ++
              [Auto {| marke := VStr (strip ma); modell := VStr (strip mo);
                       baujahr := VInt y; geschwindigkeit := VInt g;
                       beschleunigung := VFloat b |} (VStr (strip kr))];
          file := fl;
          terminal := {| screen := scr; keyboard := rest |};
          writes := ws |}, Ok false).
Proof.
  intros H0 Hidem Hk Hma Hmo Hkr Hbj Hy Hge Hg Hbe Hb.
  destruct σ as [fz fl [scr kb] ws]. cbn in Hk. subst kb.
  destruct ws as [|[|e remains] ws]; do 3 eexists;
    unfold menue, mbind, M_bind, say;
    cbn [terminal keyboard screen verwaltung file writes];
    unfold call_terminal at 1, input;
    cbn [terminal keyboard screen verwaltung file writes];
    unfold auswahl_ausfuehren; rewrite bool_decide_eq_true_2 by done;
    unfold Auto_eingeben, mbind, M_bind, call_terminal;
    cbn [terminal keyboard screen verwaltung file writes];
    rewrite eingabe_string_accepts by done;
    cbn [terminal keyboard screen verwaltung file writes];
    rewrite eingabe_string_accepts by done;
    cbn [terminal keyboard screen verwaltung file writes];
    rewrite (eingabe_int_accepts _ _ _ _ _ _ y) by done;
    cbn [terminal keyboard screen verwaltung file writes];
    rewrite (eingabe_int_accepts _ _ _ _ _ _ g) by done;
    cbn [terminal keyboard screen verwaltung file writes];
    rewrite (eingabe_float_accepts _ _ _ _ _ _ b) by done;
    cbn [terminal keyboard screen verwaltung file writes];
    rewrite eingabe_string_accepts by done;
    cbn [terminal keyboard screen verwaltung file writes mret M_ret];
    reflexivity.
Qed.

(** X21: the choice "1", followed by six answers that are accepted at once,
    adds an Auto and asks for the next choice: the Auto has the answers
    without the blanks around them as marke, modell and kraftstoff, [int] of
    the answers as baujahr and geschwindigkeit, and [float] of the answer,
    its commas read as points, as beschleunigung.  It is added whether the
    save goes through or not. *)
Theorem menue_Auto (strip : string → string) (parse_int : string → option Z)
    (parse_float : string → option float) (repr : value → string) (σ : Session)
    (ma mo bj ge be kr : string) (rest : list string) (y g : Z) (b : float) :
  strip "" = "" →
  (∀ s, strip (strip s) = strip s) →
  keyboard (terminal σ) = "1" :: ma :: mo :: bj :: ge :: be :: kr :: rest →
  strip ma ≠ "" → strip mo ≠ "" → strip kr ≠ "" →
  strip bj ≠ "" → parse_int bj = Some y →
  strip ge ≠ "" → parse_int ge = Some g →
  strip (replace_comma be) ≠ "" → parse_float (replace_comma be) = Some b →
  let r := menue strip parse_int parse_float repr σ in
  r.2 = Ok false ∧
  verwaltung r.1 =
    verwaltung σ ++
      [Auto {| marke := VStr (strip ma); modell := VStr (strip mo);
               baujahr := VInt y; geschwindigkeit := VInt g;
               beschleunigung := VFloat b |} (VStr (strip kr))] ∧
  keyboard (terminal r.1) = rest.
Proof.
  intros H0 Hidem Hk Hma Hmo Hkr Hbj Hy Hge Hg Hbe Hb r. subst r.
  destruct (menue_Auto_run strip parse_int parse_float repr σ ma mo bj ge be kr rest
              y g b) as (fl & scr & ws & ->); done.
Qed.

Lemma menue_Auto_witness :
  (menue sample_strip sample_int sample_float no_repr
     (session ["1"; "Toyota"; "Yaris"; "2020"; "170"; "9,5"; "Petrol"; "6"])).2
    = Ok false ∧
  verwaltung
    (menue sample_strip sample_int sample_float no_repr
       (session ["1"; "Toyota"; "Yaris"; "2020"; "170"; "9,5"; "Petrol"; "6"])).1
    = [toyota] ∧
  keyboard (terminal
    (menue sample_strip sample_int sample_float no_repr
       (session ["1"; "Toyota"; "Yaris"; "2020"; "170"; "9,5"; "Petrol"; "6"])).1)
    = ["6"].
Proof.
  apply (menue_Auto sample_strip sample_int sample_float no_repr
           (session ["1"; "Toyota"; "Yaris"; "2020"; "170"; "9,5"; "Petrol"; "6"])
           "Toyota" "Yaris" "2020" "170" "9,5" "Petrol" ["6"] 2020 170 9.5%float);
    try reflexivity; discriminate.
Defined.

Lemma eingabe_int_first_number_witness :
  eingabe_int sample_strip sample_int " Baujahr: "
    {| screen := []; keyboard := [""; "x"; "2020"; "170"] |} =
    ({| screen := [Prompt " Baujahr: "; leer; Prompt " Baujahr: "; keine_Zahl;
                   Prompt " Baujahr: "];
        keyboard := ["170"] |}, Ok 2020%Z).
Proof.
  apply (eingabe_int_first_number sample_strip sample_int " Baujahr: "
           {| screen := []; keyboard := [""; "x"; "2020"; "170"] |}
           [""; "x"] "2020" ["170"] 2020).
  - reflexivity.
  - apply List.Forall_cons; [by left|]. apply List.Forall_cons; [by right|].
    apply List.Forall_nil.
  - discriminate.
  - reflexivity.
Defined.

Lemma eingabe_float_first_number_witness :
  eingabe_float sample_strip sample_float " Beschleunigung: "
    {| screen := []; keyboard := ["neun"; "9,5"; "6"] |} =
    ({| screen := [Prompt " Beschleunigung: "; keine_Kommazahl;
                   Prompt " Beschleunigung: "];
        keyboard := ["6"] |}, Ok 9.5%float).
Proof.
  apply (eingabe_float_first_number sample_strip sample_float " Beschleunigung: "
           {| screen := []; keyboard := ["neun"; "9,5"; "6"] |}
           ["neun"] "9,5" ["6"] 9.5%float).
  - reflexivity.
  - apply List.Forall_cons; [by right|]. apply List.Forall_nil.
  - discriminate.
  - reflexivity.
Defined.

(** ** The object store *)

(** X22: [from_dict] works on a copy of its own: after the call the store is
    the store before the call with one dictionary more, the entries of the
    argument without "typ", under a reference that was not in use; no
    dictionary that was there is changed or removed. *)
Theorem Store_from_dict_allocates (data : Store.ref)
    (h : gmap Store.ref (gmap string value)) (d : gmap string value) :
  h !! data = Some d →
  (Store.from_dict data h).1 = <[fresh (dom h) := delete "typ" d]> h ∧
  h !! fresh (dom h) = None ∧
  ∀ l, l ∈ dom h → (Store.from_dict data h).1 !! l = h !! l.
Proof.
  intros Hd. rewrite Store_from_dict_store.
  apply lookup_total_correct in Hd as ->. rewrite alter_insert_eq.
  assert (h !! fresh (dom h) = None) as Hnew
    by (apply not_elem_of_dom, is_fresh).
  repeat split; [done|]. intros l Hl. apply lookup_insert_ne.
  intros <-. apply elem_of_dom in Hl as [x Hx]. congruence.
Qed.

Lemma Store_from_dict_allocates_witness :
  (Store.from_dict 0 toyota_store).1 =
    <[fresh (dom toyota_store) := delete "typ" (to_dict toyota)]> toyota_store ∧
  toyota_store !! fresh (dom toyota_store) = None ∧
  ∀ l, l ∈ dom toyota_store → (Store.from_dict 0 toyota_store).1 !! l = toyota_store !! l.
Proof.
  exact (Store_from_dict_allocates 0 toyota_store (to_dict toyota) eq_refl).
Defined.
